(** * User accounts: registration, login, profile read and update

    A shallow embedding of [backend/users/models.py] and
    [backend/users/schema.py].

    The two files are a thin layer over Django's ORM, Django's
    authentication package and the simplejwt token library.  The layer
    itself is embedded line by line; the library calls it makes are
    embedded from the libraries' documented behaviour, each one next to
    the name it has there:

    - the table behind [User] is a list of rows together with the state
      of the primary-key sequence; the column constraints are the ones
      [AbstractUser] and [models.py] declare ([id] primary key,
      [username] unique, [profile_json] not nullable, [email] NOT unique);
    - password hashing, token signing and the Unicode NFKC normalisation
      of user names are kept abstract in the class [Lib], with the laws
      the layer relies on;
    - text is a string of bytes (UTF-8); [lower] and [strip] act on ASCII
      letters and ASCII white space.  Column length limits, which only
      some database back ends enforce, are not part of the model.

    [schema.py] contains its own text twice; the second copy rebinds
    [UserType], [UpdateProfile] and [Query] to identical definitions and
    leaves [Register], [Login] and [Mutation] bound to the first copy, so
    one embedding of each class covers the module. *)

From Stdlib Require Import ZArith List String Ascii Bool Lia.
Import ListNotations.
Local Open Scope Z_scope.
Local Open Scope string_scope.
Set Warnings "-register-all".

(** ** Python string methods used by the layer *)

Module PyStr.

(** [str.isspace] on one ASCII character: TAB, LF, VT, FF, CR, the
    four separators FS, GS, RS, US, and the space. *)
Definition isspace (c : ascii) : bool :=
  let n := nat_of_ascii c in
  ((9 <=? n) && (n <=? 13) || (28 <=? n) && (n <=? 32))%nat.

Definition lower_char (c : ascii) : ascii :=
  let n := nat_of_ascii c in
  if ((65 <=? n) && (n <=? 90))%nat then ascii_of_nat (n + 32) else c.

(** [s.lower()] *)
Fixpoint lower (s : string) : string :=
  match s with
  | EmptyString => EmptyString
  | String c s' => String (lower_char c) (lower s')
  end.

Fixpoint lstrip (s : string) : string :=
  match s with
  | EmptyString => EmptyString
  | String c s' => if isspace c then lstrip s' else s
  end.

Fixpoint rstrip (s : string) : string :=
  match s with
  | EmptyString => EmptyString
  | String c s' =>
      match rstrip s' with
      | EmptyString => if isspace c then EmptyString else String c EmptyString
      | r => String c r
      end
  end.

(** [s.strip()] *)
Definition strip (s : string) : string := rstrip (lstrip s).

(** [s.split(sep)] for a one-character separator; never the empty list. *)
Fixpoint split (sep : ascii) (s : string) : list string :=
  match s with
  | EmptyString => [EmptyString]
  | String c s' =>
      if Ascii.eqb c sep then EmptyString :: split sep s'
      else match split sep s' with
           | [] => [String c EmptyString]
           | w :: ws => String c w :: ws
           end
  end.

(** [a, b = s.rsplit(sep, 1)]: the split at the last separator, [None]
    where the unpacking raises [ValueError] (no separator in [s]). *)
Fixpoint rsplit1 (sep : ascii) (s : string) : option (string * string) :=
  match s with
  | EmptyString => None
  | String c s' =>
      match rsplit1 sep s' with
      | Some (a, b) => Some (String c a, b)
      | None => if Ascii.eqb c sep then Some (EmptyString, s') else None
      end
  end.

(** [s.isascii()]: every byte is below 128. *)
Fixpoint isascii (s : string) : bool :=
  match s with
  | EmptyString => true
  | String c s' => (nat_of_ascii c <? 128)%nat && isascii s'
  end.

(** [x or d] for an optional string: [None] and [''] are falsy. *)
Definition or_ (x : option string) (d : string) : string :=
  match x with
  | Some (String c r) => String c r
  | Some EmptyString | None => d
  end.

End PyStr.

(** ** Data model (models.py) *)

(** The values a [JSONField] holds.  A Python float is an IEEE-754 double,
    carried here as its bit pattern. *)
Inductive JSON : Type :=
| JNull
| JBool (b : bool)
| JInt (n : Z)
| JFloat (bits : Z)
| JString (s : string)
| JArray (xs : list JSON)
| JObject (kvs : list (string * JSON)).

Definition is_null (j : JSON) : bool :=
  match j with JNull => true | _ => false end.

Module User.

(** [class User(AbstractUser)]: the inherited columns the layer touches
    and the four columns [models.py] adds.  [password] is the encoded
    hash (the spec's [password_hash]). *)
Record t : Type := Build {
  id : Z;
  username : string;
  email : string;
  password : string;
  first_name : string;
  last_name : string;
  avatar_url : option string;         (* URLField(blank=True, null=True) *)
  primary_contact : option string;    (* CharField(max_length=32, blank=True, null=True) *)
  secondary_contact : option string;  (* CharField(max_length=32, blank=True, null=True) *)
  profile_json : JSON                 (* JSONField(default=dict, blank=True) *)
}.

Definition set_password_hash (u : t) (h : string) : t :=
  Build (id u) (username u) (email u) h (first_name u) (last_name u)
        (avatar_url u) (primary_contact u) (secondary_contact u) (profile_json u).

Definition set_avatar_url (u : t) (v : option string) : t :=
  Build (id u) (username u) (email u) (password u) (first_name u) (last_name u)
        v (primary_contact u) (secondary_contact u) (profile_json u).

Definition set_primary_contact (u : t) (v : option string) : t :=
  Build (id u) (username u) (email u) (password u) (first_name u) (last_name u)
        (avatar_url u) v (secondary_contact u) (profile_json u).

Definition set_secondary_contact (u : t) (v : option string) : t :=
  Build (id u) (username u) (email u) (password u) (first_name u) (last_name u)
        (avatar_url u) (primary_contact u) v (profile_json u).

Definition set_profile_json (u : t) (v : JSON) : t :=
  Build (id u) (username u) (email u) (password u) (first_name u) (last_name u)
        (avatar_url u) (primary_contact u) (secondary_contact u) v.

End User.

(** ** Exceptions, and the state-and-exception monad of a request *)

(** The layer raises plain [Exception]s told apart by their message;
    [ValueError] and [IntegrityError] come out of the ORM. *)
Inductive error : Type :=
| Exception (msg : string)
| ValueError (msg : string)
| IntegrityError (msg : string).

(** The spec's names for the three errors of the layer. *)
Definition DuplicateEmail : error := Exception "Email already in use".
Definition InvalidCredentials : error := Exception "Invalid credentials".
Definition AuthenticationRequired : error := Exception "Authentication required".

Inductive result (A : Type) : Type :=
| Ok (a : A)
| Raise (e : error).
Arguments Ok {A} a.
Arguments Raise {A} e.

(** The user table: rows, and the next value of the [id] sequence. *)
Record Store : Type := { rows : list User.t; next_id : Z }.

Definition empty_store : Store := {| rows := []; next_id := 1 |}.

(** A computation reads and writes the table and returns or raises; a
    raise keeps the table as it is at that point. *)
Definition M (A : Type) : Type := Store -> result A * Store.

Definition ret {A} (a : A) : M A := fun s => (Ok a, s).
Definition raise {A} (e : error) : M A := fun s => (Raise e, s).
Definition bind {A B} (m : M A) (k : A -> M B) : M B :=
  fun s => match m s with
           | (Ok a, s') => k a s'
           | (Raise e, s') => (Raise e, s')
           end.
Definition gets {A} (f : Store -> A) : M A := fun s => (Ok (f s), s).

Declare Scope m_scope.
Delimit Scope m_scope with M.
Notation "x <- m ;; k" := (bind m (fun x => k))
  (at level 61, m at next level, right associativity) : m_scope.
Notation "m ;;; k" := (bind m (fun _ => k))
  (at level 61, right associativity) : m_scope.
Local Open Scope m_scope.

(** ** Library primitives kept abstract *)

(** A simplejwt token as far as the layer sees it: its type and the
    identity it is bound to.  Expiry, issue time and the random [jti] do
    not depend on the user record and are left to [jwt_encode]. *)
Record Token : Type := { token_type : string; user_id : Z }.

(** [make_password] and [check_password] of [django.contrib.auth.hashers],
    the signed serialisation [str(token)] of simplejwt, and
    [AbstractBaseUser.normalize_username], which is
    [unicodedata.normalize("NFKC", username)].  The laws: a hash verifies
    the password it was made from; a serialised token (three dot-separated
    segments) is never the empty string; NFKC leaves ASCII text as it is
    and never turns a non-empty string into the empty one. *)
Class Lib : Type := {
  make_password : string -> string;
  check_password_hash : string -> string -> bool;
  check_make_password :
    forall raw, check_password_hash raw (make_password raw) = true;
  jwt_encode : Token -> string;
  jwt_encode_nonempty : forall t, jwt_encode t <> "";
  normalize_username : string -> string;
  normalize_username_ascii :
    forall s, PyStr.isascii s = true -> normalize_username s = s;
  normalize_username_nonempty :
    forall s, s <> "" -> normalize_username s <> ""
}.

(** ** The ORM calls of the layer *)

(** [BaseUserManager.normalize_email]: strip, then lower-case the part
    after the last [@]; an address without [@] is returned as given. *)
Definition normalize_email (email : string) : string :=
  match PyStr.rsplit1 "@" (PyStr.strip email) with
  | Some (email_name, domain_part) =>
      email_name ++ "@" ++ PyStr.lower domain_part
  | None => email
  end.

(** [UserModel.objects.filter(email=email)]: exact match. *)
Definition objects_filter_email (email : string) (s : Store) : list User.t :=
  filter (fun u => User.email u =? email) (rows s).

(** [queryset.exists()] *)
Definition exists_ (q : list User.t) : bool :=
  match q with [] => false | _ :: _ => true end.

(** [queryset.first()]: without an ordering the query set is ordered by
    primary key, so the row of least [id]. *)
Fixpoint first (q : list User.t) : option User.t :=
  match q with
  | [] => None
  | u :: q' =>
      match first q' with
      | Some v => if (User.id v <? User.id u)%Z then Some v else Some u
      | None => Some u
      end
  end.

(** [UserModel._default_manager.get_by_natural_key(username)], [None] for
    [DoesNotExist]; [username] is unique, so at most one row matches. *)
Definition get_by_natural_key (username : string) (s : Store) : option User.t :=
  match filter (fun u => User.username u =? username) (rows s) with
  | [] => None
  | u :: _ => Some u
  end.

(** The row with primary key [pk]. *)
Definition find_by_id (pk : Z) (s : Store) : option User.t :=
  find (fun u => (User.id u =? pk)%Z) (rows s).

Definition not_null_violation : error :=
  IntegrityError "NOT NULL constraint failed: users_user.profile_json".
Definition unique_violation : error :=
  IntegrityError "UNIQUE constraint failed: users_user.username".

(** [profile_json] has no [null=True]; Python [None] goes to the column
    as SQL NULL. *)
Definition check_not_null (u : User.t) : M unit :=
  if is_null (User.profile_json u) then raise not_null_violation else ret tt.

(** [username] is unique: no row among [others] may carry it. *)
Definition check_unique (u : User.t) (others : Store -> list User.t) : M unit :=
  fun s =>
    if existsb (fun v => User.username v =? User.username u) (others s)
    then (Raise unique_violation, s) else (Ok tt, s).

Definition modify_rows (f : list User.t -> list User.t) : M unit :=
  fun s => (Ok tt, {| rows := f (rows s); next_id := next_id s |}).

(** [Model.save()] of an instance without primary key: INSERT, the [id]
    taken from the sequence. *)
Definition insert (mk : Z -> User.t) : M User.t :=
  fun s =>
    let u := mk (next_id s) in
    (check_not_null u ;;;
     check_unique u rows ;;;
     (fun s => (Ok u, {| rows := (rows s ++ [u])%list; next_id := next_id s + 1 |}))) s.

(** [UPDATE ... WHERE id = pk]: the rows with the key of [u] become [u]. *)
Definition replace_row (u : User.t) (r : list User.t) : list User.t :=
  map (fun v => if (User.id v =? User.id u)%Z then u else v) r.

(** [Model.save()] of an instance with primary key: UPDATE of every column
    of the row with that [id]; INSERT under that [id] when no row has it. *)
Definition save (u : User.t) : M unit :=
  check_not_null u ;;;
  present <- gets (fun s => existsb (fun v => (User.id v =? User.id u)%Z) (rows s)) ;;
  if present
  then check_unique u (fun s => filter (fun v => negb (User.id v =? User.id u)%Z) (rows s)) ;;;
       modify_rows (replace_row u)
  else check_unique u rows ;;;
       modify_rows (fun r => (r ++ [u])%list).

Section Layer.

Context {L : Lib}.

(** [UserManager.create_user]: the user name must be set; e-mail and
    user name are normalised, the password is hashed, the remaining
    columns take their defaults, and the row is inserted. *)
Definition create_user (username email password first_name last_name : string)
  : M User.t :=
  match username with
  | EmptyString => raise (ValueError "The given username must be set")
  | _ =>
      insert (fun pk =>
        User.Build pk (normalize_username username) (normalize_email email)
                   (make_password password) first_name last_name
                   None None None (JObject []))
  end.

(** [user.check_password(raw)] *)
Definition check_password (u : User.t) (raw : string) : bool :=
  check_password_hash raw (User.password u).

(** [django.contrib.auth.authenticate(username=..., password=...)] with
    the default [ModelBackend].  Every row is created active and nothing
    in the layer clears the flag, so the backend's [is_active] test is
    left out. *)
Definition authenticate (username password : string) (s : Store)
  : option User.t :=
  match get_by_natural_key username s with
  | Some u => if check_password u password then Some u else None
  | None => None
  end.

(** [RefreshToken.for_user(user)], [refresh.access_token], [str(token)] *)
Definition RefreshToken_for_user (u : User.t) : Token :=
  {| token_type := "refresh"; user_id := User.id u |}.
Definition access_token (refresh : Token) : Token :=
  {| token_type := "access"; user_id := user_id refresh |}.
Definition str (t : Token) : string := jwt_encode t.

End Layer.

(** ** The API layer (schema.py) *)

(** [info.context.user]: Django's [AnonymousUser] (the one value whose
    [is_anonymous] is true), or the record the authentication boundary
    loaded for the caller. *)
Inductive ContextUser : Type :=
| AnonymousUser
| Authenticated (user : User.t).

Module Arg.
(** [UpdateProfile.Arguments]: the only keys the schema lets into
    [kwargs]. *)
Inductive t : Type := primary_contact | secondary_contact | avatar_url.

Definition eqb (a b : t) : bool :=
  match a, b with
  | primary_contact, primary_contact
  | secondary_contact, secondary_contact
  | avatar_url, avatar_url => true
  | _, _ => false
  end.
End Arg.

(** [hasattr(user, k)]: each of the three names is a column of [User]. *)
Definition hasattr (user : User.t) (k : Arg.t) : bool := true.

(** [setattr(user, k, v)] *)
Definition setattr (user : User.t) (k : Arg.t) (v : string) : User.t :=
  match k with
  | Arg.primary_contact => User.set_primary_contact user (Some v)
  | Arg.secondary_contact => User.set_secondary_contact user (Some v)
  | Arg.avatar_url => User.set_avatar_url user (Some v)
  end.

(** [getattr(user, k)] for the same three names. *)
Definition getattr_arg (user : User.t) (k : Arg.t) : option string :=
  match k with
  | Arg.primary_contact => User.primary_contact user
  | Arg.secondary_contact => User.secondary_contact user
  | Arg.avatar_url => User.avatar_url user
  end.

(** [kwargs]: the supplied arguments in order, [None] for an explicit
    null.  The loop body of [UpdateProfile.mutate]. *)
Definition kwargs_t : Type := list (Arg.t * option string).

Definition UpdateProfile_assign (user : User.t) (kv : Arg.t * option string)
  : User.t :=
  match kv with
  | (k, Some v) => if hasattr user k then setattr user k v else user
  | (_, None) => user
  end.

Definition UpdateProfile_mutate (info : ContextUser) (kwargs : kwargs_t)
  : M User.t :=
  match info with
  | AnonymousUser => raise (Exception "Authentication required")
  | Authenticated user =>
      let user := fold_left UpdateProfile_assign kwargs user in
      save user ;;;
      ret user
  end.

(** [Query.resolve_me] *)
Definition Query_resolve_me (info : ContextUser) : option User.t :=
  match info with
  | AnonymousUser => None
  | Authenticated user => Some user
  end.

Section Schema.

Context {L : Lib}.

Definition Register_mutate (email password : string)
    (username first_name last_name : option string)
  : M (User.t * string * string) :=
  taken <- gets (fun s => exists_ (objects_filter_email email s)) ;;
  if taken : bool then raise (Exception "Email already in use")
  else
    user <- create_user
              (PyStr.or_ username (nth 0 (PyStr.split "@" email) ""))
              email password
              (PyStr.or_ first_name "") (PyStr.or_ last_name "") ;;
    save user ;;;
    let refresh := RefreshToken_for_user user in
    ret (user, str (access_token refresh), str refresh).

Definition Login_mutate (email password : string)
  : M (User.t * string * string) :=
  user <- gets (authenticate email password) ;;
  user <- gets (fun s =>
    match user with
    | Some _ => user
    | None =>
        (* try authenticate with email field *)
        match first (objects_filter_email email s) with
        | Some obj => if check_password obj password then Some obj else None
        | None => None
        end
    end) ;;
  match user with
  | None => raise (Exception "Invalid credentials")
  | Some user =>
      let refresh := RefreshToken_for_user user in
      ret (user, str (access_token refresh), str refresh)
  end.

End Schema.

(** ** What [UserType] shows of a record *)

Inductive value : Type :=
| VInt (n : Z)
| VString (s : string)
| VNullable (s : option string)
| VJSON (j : JSON).

(** [getattr(user, name)] over the columns of the record. *)
Definition getattr (u : User.t) (name : string) : option value :=
  if name =? "id" then Some (VInt (User.id u))
  else if name =? "username" then Some (VString (User.username u))
  else if name =? "email" then Some (VString (User.email u))
  else if name =? "password" then Some (VString (User.password u))
  else if name =? "first_name" then Some (VString (User.first_name u))
  else if name =? "last_name" then Some (VString (User.last_name u))
  else if name =? "avatar_url" then Some (VNullable (User.avatar_url u))
  else if name =? "primary_contact" then Some (VNullable (User.primary_contact u))
  else if name =? "secondary_contact" then Some (VNullable (User.secondary_contact u))
  else if name =? "profile_json" then Some (VJSON (User.profile_json u))
  else None.

(** [UserType.Meta.fields] *)
Definition UserType_fields : list string :=
  ["id"; "username"; "email"; "first_name"; "last_name"; "avatar_url";
   "primary_contact"; "secondary_contact"; "profile_json"].

(** The object a caller can select from: one entry per listed field. *)
Definition UserType_resolve (u : User.t) : list (string * option value) :=
  map (fun f => (f, getattr u f)) UserType_fields.

(** ** Requests and reachable tables *)

Inductive request : Type :=
| ReqRegister (email password : string) (username first_name last_name : option string)
| ReqLogin (email password : string)
| ReqUpdateProfile (info : ContextUser) (kwargs : kwargs_t)
| ReqMe (info : ContextUser).

(** The caller of a request is anonymous or a row of the table. *)
Definition context_of (s : Store) (c : ContextUser) : Prop :=
  match c with
  | AnonymousUser => True
  | Authenticated u => In u (rows s)
  end.

Definition request_ok (s : Store) (r : request) : Prop :=
  match r with
  | ReqUpdateProfile info _ | ReqMe info => context_of s info
  | _ => True
  end.

Section Reach.

Context {L : Lib}.

(** The table after a request. *)
Definition handle (r : request) (s : Store) : Store :=
  match r with
  | ReqRegister e p un fn ln => snd (Register_mutate e p un fn ln s)
  | ReqLogin e p => snd (Login_mutate e p s)
  | ReqUpdateProfile info kw => snd (UpdateProfile_mutate info kw s)
  | ReqMe _ => s
  end.

Inductive reachable : Store -> Prop :=
| reach_empty : reachable empty_store
| reach_step s r : reachable s -> request_ok s r -> reachable (handle r s).

End Reach.

(** The constraints of the table. *)
Record wf (s : Store) : Prop := {
  wf_id_range : forall u, In u (rows s) -> User.id u < next_id s;
  wf_id_unique : NoDup (map User.id (rows s));
  wf_username_unique : NoDup (map User.username (rows s));
  wf_profile_not_null : forall u, In u (rows s) -> User.profile_json u <> JNull
}.

Definition email_unique (s : Store) : Prop := NoDup (map User.email (rows s)).

(** NFKC on the texts the examples use: the ligature U+FB01 (bytes 239,
    172, 129) becomes [fi]; every other byte is kept. *)
Fixpoint nfkc_fi (s : string) : string :=
  match s with
  | EmptyString => EmptyString
  | String a t =>
      match t with
      | String b (String c r) =>
          if ((nat_of_ascii a =? 239) && (nat_of_ascii b =? 172)
              && (nat_of_ascii c =? 129))%nat
          then String "f" (String "i" (nfkc_fi r))
          else String a (nfkc_fi t)
      | _ => String a (nfkc_fi t)
      end
  end.

(** A stand-in for the libraries, used to run the layer on concrete
    requests: the "hash" is the password behind a marker, a token is its
    type followed by a dot, user names are normalised by [nfkc_fi]. *)
#[refine] Instance plain_lib : Lib := {|
  make_password raw := "plain$" ++ raw;
  check_password_hash raw encoded := encoded =? "plain$" ++ raw;
  jwt_encode t := token_type t ++ ".";
  normalize_username := nfkc_fi
|}.
Proof.
  - intros raw. apply String.eqb_refl.
  - intros [ty i]; simpl. destruct ty; discriminate.
  - induction s as [|a t IH]; [reflexivity|].
    cbn [PyStr.isascii]. intros H. apply andb_prop in H as [Ha Ht].
    assert (Ea : (nat_of_ascii a =? 239)%nat = false).
    { apply Nat.eqb_neq. apply Nat.ltb_lt in Ha. lia. }
    cbn [nfkc_fi]. rewrite Ea. cbn [andb]. rewrite (IH Ht).
    destruct t as [|b [|c r]]; reflexivity.
  - intros [|a [|b [|c r]]] H; [contradiction|discriminate|discriminate|].
    cbn [nfkc_fi]. destruct (_ && _)%bool; discriminate.
Defined.

(** ** Definitions the statements use *)

Section Derived.

Context {L : Lib}.

(** The two look-ups of [Login.mutate], in the order it makes them. *)
Definition Login_lookup (email password : string) (s : Store) : option User.t :=
  match authenticate email password s with
  | Some u => Some u
  | None =>
      match first (objects_filter_email email s) with
      | Some obj => if check_password obj password then Some obj else None
      | None => None
      end
  end.

(** The user name [Register.mutate] hands to [create_user]. *)
Definition Register_username (email : string) (username : option string) : string :=
  PyStr.or_ username (nth 0 (PyStr.split "@" email) "").

(** The record [create_user] builds for a [register] call on table [s]. *)
Definition Register_user (s : Store) (email password : string)
    (username first_name last_name : option string) : User.t :=
  User.Build (next_id s)
             (normalize_username (Register_username email username))
             (normalize_email email) (make_password password)
             (PyStr.or_ first_name "") (PyStr.or_ last_name "")
             None None None (JObject []).

(** The tokens both mutations return for a record. *)
Definition tokens_for (u : User.t) : string * string :=
  (str (access_token (RefreshToken_for_user u)), str (RefreshToken_for_user u)).

End Derived.

(** The spec's wording of the default user name: the part of the e-mail
    before its first [@] (all of it when it has none), by the Standard
    Library's [index] and [substring]. *)
Definition local_part (email : string) : string :=
  match index 0 "@" email with
  | Some n => substring 0 n email
  | None => email
  end.

(** Two records that agree on every column [updateProfile] has no
    argument for. *)
Definition same_outside_profile (u u' : User.t) : Prop :=
  User.id u' = User.id u
  /\ User.username u' = User.username u
  /\ User.email u' = User.email u
  /\ User.password u' = User.password u
  /\ User.first_name u' = User.first_name u
  /\ User.last_name u' = User.last_name u
  /\ User.profile_json u' = User.profile_json u.

(** Tables the examples run on. *)
Definition store_alice : Store :=
  {| rows := [User.Build 1 "alice" "alice@x.com" "plain$secret" "" ""
                         None None None (JObject [])];
     next_id := 2 |}.

Definition store_bob : Store :=
  {| rows := [User.Build 1 "alice" "alice@x.com" "plain$secret" "" ""
                         None (Some "+15550100") None (JObject []);
              User.Build 2 "bob" "bob@x.com" "plain$hunter2" "Bob" ""
                         None None None (JObject [])];
     next_id := 3 |}.

(** Request sequences the examples run, from the empty table. *)
Definition run_requests {L : Lib} (rs : list request) : Store :=
  fold_left (fun s r => handle r s) rs empty_store.

Definition twice_same_email : list request :=
  [ReqRegister "a@X.com" "pw" (Some "u1") None None;
   ReqRegister "a@X.com" "pw" (Some "u2") None None].

Definition email_as_username : list request :=
  [ReqRegister "a@x.com" "pw" (Some "b@x.com") None None;
   ReqRegister "b@x.com" "pw" (Some "bob") None None].

(** ** The display name (models.py) *)

(** [AbstractUser.get_full_name]: first and last name with a space in
    between, stripped. *)
Definition get_full_name (u : User.t) : string :=
  PyStr.strip (User.first_name u ++ " " ++ User.last_name u).

(** [User.__str__]: [self.get_full_name() or self.username]. *)
Definition User__str__ (u : User.t) : string :=
  match get_full_name u with
  | EmptyString => User.username u
  | String c r => String c r
  end.

(** What every row written through the layer satisfies: a user name that
    is set, an e-mail in normal form, a password column that came out of
    [make_password]. *)
Definition row_ok {L : Lib} (u : User.t) : Prop :=
  User.username u <> ""
  /\ normalize_email (User.email u) = User.email u
  /\ exists raw, User.password u = make_password raw.

(** The ligature U+FB01 in UTF-8 (bytes 239, 172, 129) followed by [n];
    the NFKC normal form of this text is [fin]. *)
Definition fin_ligature : string :=
  String (ascii_of_nat 239) (String (ascii_of_nat 172)
    (String (ascii_of_nat 129) "n")).


(** * Properties *)

(** ** Query sets *)

Ltac run :=
  cbv beta iota delta
    [bind gets ret raise modify_rows check_not_null check_unique].

Lemma objects_filter_email_In email s u :
  In u (objects_filter_email email s) <->
  In u (rows s) /\ User.email u = email.
Proof.
  unfold objects_filter_email. rewrite filter_In, String.eqb_eq. tauto.
Qed.

Lemma exists_true_iff q : exists_ q = true <-> exists u, In u q.
Proof.
  destruct q as [|u q]; simpl; split; try discriminate.
  - intros [u []].
  - intros _. exists u. now left.
  - reflexivity.
Qed.

Lemma exists_false_iff q : exists_ q = false <-> q = [].
Proof. destruct q; simpl; split; congruence. Qed.

Lemma first_In q u : first q = Some u -> In u q.
Proof.
  revert u. induction q as [|v q IH]; simpl; intros u H; [discriminate|].
  destruct (first q) as [w|].
  - destruct (User.id w <? User.id v)%Z; inversion H; subst; auto.
  - inversion H; auto.
Qed.

Lemma first_None q : first q = None -> q = [].
Proof.
  destruct q as [|v q]; simpl; [reflexivity|].
  destruct (first q) as [w|]; [destruct (User.id w <? User.id v)%Z|]; discriminate.
Qed.

(** On a query set whose rows are all the same record, [first] is it. *)
Lemma first_only q u :
  q <> [] -> (forall v, In v q -> v = u) -> first q = Some u.
Proof.
  intros Hne Hall. destruct (first q) as [w|] eqn:E.
  - apply first_In in E. now rewrite (Hall w E).
  - apply first_None in E. contradiction.
Qed.

Lemma get_by_natural_key_Some name s u :
  get_by_natural_key name s = Some u ->
  In u (rows s) /\ User.username u = name.
Proof.
  unfold get_by_natural_key. intros H.
  destruct (filter _ (rows s)) as [|v q] eqn:E; [discriminate|].
  inversion H; subst v.
  assert (Hin : In u (filter (fun u => User.username u =? name) (rows s)))
    by (rewrite E; now left).
  apply filter_In in Hin. now rewrite String.eqb_eq in Hin.
Qed.

Lemma find_by_id_Some pk s u :
  find_by_id pk s = Some u -> In u (rows s) /\ User.id u = pk.
Proof.
  unfold find_by_id. intros H. apply find_some in H.
  now rewrite Z.eqb_eq in H.
Qed.

(** ** Login *)

Section LoginFacts.

Context {L : Lib}.

Lemma Login_mutate_eq email password s :
  Login_mutate email password s =
  (match Login_lookup email password s with
   | Some user =>
       Ok (user, str (access_token (RefreshToken_for_user user)),
           str (RefreshToken_for_user user))
   | None => Raise InvalidCredentials
   end, s).
Proof.
  unfold Login_mutate, Login_lookup. run.
  destruct (authenticate email password s) as [u|]; [reflexivity|].
  destruct (first (objects_filter_email email s)) as [obj|]; [|reflexivity].
  destruct (check_password obj password); reflexivity.
Qed.

Lemma Login_lookup_In email password s u :
  Login_lookup email password s = Some u ->
  In u (rows s) /\ check_password u password = true /\
  (User.username u = email \/ User.email u = email).
Proof.
  unfold Login_lookup, authenticate. intros H.
  destruct (get_by_natural_key email s) as [v|] eqn:Ek.
  - destruct (check_password v password) eqn:Ec.
    + inversion H; subst v. apply get_by_natural_key_Some in Ek. tauto.
    + destruct (first _) as [obj|] eqn:Ef; [|discriminate].
      destruct (check_password obj password) eqn:Eo; [|discriminate].
      inversion H; subst obj. apply first_In, objects_filter_email_In in Ef. tauto.
  - destruct (first _) as [obj|] eqn:Ef; [|discriminate].
    destruct (check_password obj password) eqn:Eo; [|discriminate].
    inversion H; subst obj. apply first_In, objects_filter_email_In in Ef. tauto.
Qed.

End LoginFacts.

(** C1: a [register] call whose e-mail is the e-mail of a row of the table
    raises the duplicate-e-mail exception and leaves the table exactly as
    it was, so no record is created. *)
Theorem Register_duplicate_email {L : Lib}
    (s : Store) (email password : string)
    (username first_name last_name : option string) :
  (exists u, In u (rows s) /\ User.email u = email) ->
  Register_mutate email password username first_name last_name s
  = (Raise DuplicateEmail, s).
Proof.
  intros [u Hu]. unfold Register_mutate. run.
  assert (E : exists_ (objects_filter_email email s) = true).
  { apply exists_true_iff. exists u. now apply objects_filter_email_In. }
  now rewrite E.
Qed.

Lemma Register_duplicate_email_witness :
  Register_mutate (L := plain_lib) "alice@x.com" "other" (Some "al") None None
                  store_alice
  = (Raise DuplicateEmail, store_alice).
Proof.
  apply (Register_duplicate_email (L := plain_lib)).
  eexists. split; [left; reflexivity | reflexivity].
Defined.

(** C2: a failing [login] raises the one invalid-credentials exception and
    leaves the table alone, whatever made it fail: it does so when no row
    carries the submitted string as e-mail (or user name), and it does so
    when rows carry it but the password verifies against none of them. *)
Theorem Login_failure_uniform {L : Lib} (s : Store) (email password : string) :
  (forall e, fst (Login_mutate email password s) = Raise e ->
             Login_mutate email password s = (Raise InvalidCredentials, s))
  /\ ((forall u, In u (rows s) ->
                 User.email u <> email /\ User.username u <> email) ->
      Login_mutate email password s = (Raise InvalidCredentials, s))
  /\ ((forall u, In u (rows s) ->
                 User.email u = email \/ User.username u = email ->
                 check_password u password = false) ->
      Login_mutate email password s = (Raise InvalidCredentials, s)).
Proof.
  assert (Hnone : (forall u, In u (rows s) ->
                     User.email u = email \/ User.username u = email ->
                     check_password u password = false) ->
                  Login_mutate email password s = (Raise InvalidCredentials, s)).
  { intros H. rewrite Login_mutate_eq.
    destruct (Login_lookup email password s) as [u|] eqn:E; [|reflexivity].
    apply Login_lookup_In in E. destruct E as (Hin & Hc & Hm).
    rewrite (H u Hin) in Hc by tauto. discriminate. }
  split; [|split].
  - intros e. rewrite Login_mutate_eq.
    destruct (Login_lookup email password s); cbn [fst]; [discriminate|reflexivity].
  - intros H. apply Hnone. intros u Hin [E|E]; destruct (H u Hin); contradiction.
  - exact Hnone.
Qed.

Lemma Login_failure_uniform_witness :
  Login_mutate (L := plain_lib) "ghost@x.com" "anything" store_alice
  = (Raise InvalidCredentials, store_alice)
  /\ Login_mutate (L := plain_lib) "alice@x.com" "wrong" store_alice
     = (Raise InvalidCredentials, store_alice).
Proof.
  split.
  - apply (Login_failure_uniform (L := plain_lib) store_alice "ghost@x.com" "anything").
    intros u [<-|[]]. split; discriminate.
  - apply (Login_failure_uniform (L := plain_lib) store_alice "alice@x.com" "wrong").
    intros u [<-|[]] _. reflexivity.
Defined.

(** C7: [updateProfile] with an anonymous caller raises the
    authentication-required exception whatever the arguments, and the
    table is exactly as before. *)
Theorem UpdateProfile_anonymous (s : Store) (kwargs : kwargs_t) :
  UpdateProfile_mutate AnonymousUser kwargs s = (Raise AuthenticationRequired, s).
Proof. reflexivity. Qed.

(** ** Saving and registering, step by step *)

Lemma save_run u s :
  save u s =
  if is_null (User.profile_json u) then (Raise not_null_violation, s)
  else if existsb (fun v => (User.id v =? User.id u)%Z) (rows s)
       then if existsb (fun v => User.username v =? User.username u)
                 (filter (fun v => negb (User.id v =? User.id u)%Z) (rows s))
            then (Raise unique_violation, s)
            else (Ok tt, {| rows := replace_row u (rows s); next_id := next_id s |})
       else if existsb (fun v => User.username v =? User.username u) (rows s)
            then (Raise unique_violation, s)
            else (Ok tt, {| rows := (rows s ++ [u])%list; next_id := next_id s |}).
Proof.
  unfold save. run.
  destruct (is_null (User.profile_json u)); cbv beta iota; [reflexivity|].
  destruct (existsb (fun v => (User.id v =? User.id u)%Z) (rows s));
    cbv beta iota;
    destruct (existsb (fun v => User.username v =? User.username u) _);
    reflexivity.
Qed.

Lemma existsb_filter_false {A} (f g : A -> bool) l :
  existsb f l = false -> existsb f (filter g l) = false.
Proof.
  induction l as [|a l IH]; simpl; [reflexivity|].
  intros H. apply orb_false_iff in H as [Ha Hl].
  destruct (g a); simpl; [rewrite Ha|]; auto.
Qed.

Lemma existsb_false_In {A} (f : A -> bool) l :
  existsb f l = false <-> forall a, In a l -> f a = false.
Proof.
  split.
  - intros H a Ha. destruct (f a) eqn:E; [|reflexivity].
    assert (existsb f l = true) by (apply existsb_exists; eauto). congruence.
  - intros H. destruct (existsb f l) eqn:E; [|reflexivity].
    apply existsb_exists in E as (a & Ha & Hf). rewrite (H a Ha) in Hf. discriminate.
Qed.

(** Rows whose key differs from the key of [u] are not touched. *)
Lemma replace_row_fresh u r :
  (forall v, In v r -> User.id v <> User.id u) -> replace_row u r = r.
Proof.
  unfold replace_row. induction r as [|v r IH]; simpl; intros H; [reflexivity|].
  rewrite IH by auto. destruct (Z.eqb_spec (User.id v) (User.id u)) as [E|_].
  - exfalso. apply (H v); auto.
  - reflexivity.
Qed.

Lemma replace_row_snoc u r :
  (forall v, In v r -> User.id v <> User.id u) ->
  replace_row u (r ++ [u]) = (r ++ [u])%list.
Proof.
  intros H. unfold replace_row. rewrite map_app. cbn [map].
  rewrite Z.eqb_refl. f_equal. now apply replace_row_fresh.
Qed.

Lemma replace_row_ids u r : map User.id (replace_row u r) = map User.id r.
Proof.
  unfold replace_row. rewrite map_map. apply map_ext. intros v.
  destruct (Z.eqb_spec (User.id v) (User.id u)); congruence.
Qed.

Lemma replace_row_In u r w :
  In w (replace_row u r) ->
  (w = u /\ exists v, In v r /\ User.id v = User.id u)
  \/ (In w r /\ User.id w <> User.id u).
Proof.
  unfold replace_row. rewrite in_map_iff. intros (v & E & Hv).
  destruct (Z.eqb_spec (User.id v) (User.id u)) as [Ei|Ei]; subst w; eauto.
Qed.

Lemma replace_row_keeps u r w :
  In w r -> User.id w <> User.id u -> In w (replace_row u r).
Proof.
  intros Hin Hne. unfold replace_row. apply in_map_iff. exists w.
  split; [|assumption].
  destruct (Z.eqb_spec (User.id w) (User.id u)); congruence.
Qed.

Section RegisterFacts.

Context {L : Lib}.

(** [Register.mutate] as the sequence of its four outcomes. *)
Lemma Register_mutate_run s email password username first_name last_name :
  let u := Register_user s email password username first_name last_name in
  Register_mutate email password username first_name last_name s =
  if exists_ (objects_filter_email email s) then (Raise DuplicateEmail, s)
  else match Register_username email username with
       | EmptyString => (Raise (ValueError "The given username must be set"), s)
       | _ =>
           if existsb (fun v => User.username v
                                =? normalize_username
                                     (Register_username email username))
                      (rows s)
           then (Raise unique_violation, s)
           else (Ok (u, fst (tokens_for u), snd (tokens_for u)),
                 {| rows := replace_row u (rows s ++ [u]);
                    next_id := next_id s + 1 |})
       end.
Proof.
  intros u. unfold Register_mutate. run.
  destruct (exists_ (objects_filter_email email s)); [reflexivity|].
  fold (Register_username email username).
  unfold create_user.
  destruct (Register_username email username) as [|c un] eqn:Eun; [reflexivity|].
  unfold insert. run. cbn [is_null User.profile_json User.username].
  destruct (existsb _ (rows s)) eqn:Ex; [reflexivity|].
  rewrite save_run. cbn [is_null User.profile_json User.username User.id rows next_id].
  rewrite existsb_app. cbn [existsb User.id]. rewrite Z.eqb_refl.
  cbn [orb]. rewrite orb_true_r.
  rewrite filter_app, existsb_app. cbn [filter User.id]. rewrite Z.eqb_refl.
  cbn [negb existsb]. rewrite (existsb_filter_false _ _ _ Ex). cbn [orb].
  subst u. unfold Register_user, tokens_for.
  rewrite Eun. reflexivity.
Qed.

End RegisterFacts.

(** ** The default user name *)

Lemma split_head_local_part email :
  nth 0 (PyStr.split "@" email) "" = local_part email.
Proof.
  unfold local_part. induction email as [|c e IH]; [reflexivity|].
  cbn [PyStr.split index prefix].
  destruct (Ascii.eqb c "@") eqn:E.
  - apply Ascii.eqb_eq in E. subst c.
    destruct (ascii_dec "@" "@") as [_|N]; [|congruence].
    destruct e; reflexivity.
  - destruct (ascii_dec "@" c) as [Ec|_].
    + subst c. rewrite Ascii.eqb_refl in E. discriminate.
    + destruct (PyStr.split "@" e) as [|w ws].
      * cbn [nth] in *. destruct (index 0 "@" e) as [n|].
        -- cbn [substring]. destruct n; cbn in IH |- *; congruence.
        -- congruence.
      * cbn [nth] in *. destruct (index 0 "@" e) as [n|].
        -- cbn [substring]. now rewrite IH.
        -- now rewrite IH.
Qed.

(** ** What a caller sees of a record *)

(** C8: what [UserType] shows of a record is exactly the nine listed
    fields with the record's values; the password hash is not among
    them, and neither the shown object nor the token identity changes
    when only the stored hash changes. *)
Theorem UserType_hides_password {L : Lib} (u : User.t) (h : string) :
  UserType_resolve u =
    [("id", Some (VInt (User.id u)));
     ("username", Some (VString (User.username u)));
     ("email", Some (VString (User.email u)));
     ("first_name", Some (VString (User.first_name u)));
     ("last_name", Some (VString (User.last_name u)));
     ("avatar_url", Some (VNullable (User.avatar_url u)));
     ("primary_contact", Some (VNullable (User.primary_contact u)));
     ("secondary_contact", Some (VNullable (User.secondary_contact u)));
     ("profile_json", Some (VJSON (User.profile_json u)))]
  /\ ~ In "password" (map fst (UserType_resolve u))
  /\ getattr u "password" = Some (VString (User.password u))
  /\ UserType_resolve (User.set_password_hash u h) = UserType_resolve u
  /\ tokens_for (User.set_password_hash u h) = tokens_for u.
Proof.
  split; [reflexivity|]. split; [|split; [reflexivity|split; reflexivity]].
  cbn. intros H.
  repeat (destruct H as [H|H]; [discriminate|]). exact H.
Qed.

(** ** Rows and keys *)

Lemma NoDup_map_In_eq {A B} (f : A -> B) l a b :
  NoDup (map f l) -> In a l -> In b l -> f a = f b -> a = b.
Proof.
  induction l as [|x l IH]; simpl; intros Hnd Ha Hb E; [contradiction|].
  inversion Hnd as [|? ? Hx Hl]; subst.
  destruct Ha as [->|Ha], Hb as [->|Hb]; auto.
  - exfalso. apply Hx. rewrite E. now apply in_map.
  - exfalso. apply Hx. rewrite <- E. now apply in_map.
Qed.

Lemma find_replace_row_hit u r :
  existsb (fun v => (User.id v =? User.id u)%Z) r = true ->
  find (fun v => (User.id v =? User.id u)%Z) (replace_row u r) = Some u.
Proof.
  unfold replace_row. induction r as [|v r IH]; simpl; [discriminate|].
  destruct (Z.eqb_spec (User.id v) (User.id u)) as [E|E]; simpl.
  - now rewrite Z.eqb_refl.
  - intros H. destruct (Z.eqb_spec (User.id v) (User.id u)); [contradiction|auto].
Qed.

Lemma find_replace_row_miss u r pk :
  pk <> User.id u ->
  find (fun v => (User.id v =? pk)%Z) (replace_row u r)
  = find (fun v => (User.id v =? pk)%Z) r.
Proof.
  intros Hpk. unfold replace_row. induction r as [|v r IH]; simpl; [reflexivity|].
  rewrite IH. destruct (Z.eqb_spec (User.id v) (User.id u)) as [E|E].
  - destruct (Z.eqb_spec (User.id u) pk); [congruence|].
    destruct (Z.eqb_spec (User.id v) pk); [congruence|reflexivity].
  - reflexivity.
Qed.

Lemma find_app_last u r :
  existsb (fun v => (User.id v =? User.id u)%Z) r = false ->
  find (fun v => (User.id v =? User.id u)%Z) (r ++ [u]) = Some u.
Proof.
  induction r as [|v r IH]; simpl.
  - now rewrite Z.eqb_refl.
  - intros H. apply orb_false_iff in H as [Hv Hr]. now rewrite Hv, IH.
Qed.

(** Saving a record that keeps the key and the user name of a row of a
    well-formed table, with a non-null [profile_json], updates that row. *)
Lemma save_existing s u u0 :
  wf s -> In u0 (rows s) ->
  User.id u = User.id u0 -> User.username u = User.username u0 ->
  User.profile_json u <> JNull ->
  save u s = (Ok tt, {| rows := replace_row u (rows s); next_id := next_id s |}).
Proof.
  intros W Hin Eid Eun Hnn. rewrite save_run.
  destruct (is_null (User.profile_json u)) eqn:En.
  { destruct (User.profile_json u); try discriminate. congruence. }
  assert (Ep : existsb (fun v => (User.id v =? User.id u)%Z) (rows s) = true).
  { apply existsb_exists. exists u0. split; [assumption|]. apply Z.eqb_eq. congruence. }
  rewrite Ep.
  assert (Eo : existsb (fun v => User.username v =? User.username u)
                 (filter (fun v => negb (User.id v =? User.id u)%Z) (rows s)) = false).
  { apply existsb_false_In. intros v Hv. apply filter_In in Hv as [Hv Hne].
    destruct (String.eqb_spec (User.username v) (User.username u)) as [E|E]; [|reflexivity].
    assert (v = u0).
    { apply (NoDup_map_In_eq User.username (rows s)); try assumption.
      - apply W.
      - congruence. }
    subst v. rewrite Eid, Z.eqb_refl in Hne. discriminate. }
  now rewrite Eo.
Qed.

(** C9: once a record whose [profile_json] was set to [v] has been saved,
    reading the user back by its key gives a record whose [profile_json]
    is [v], and every row under that key carries [v]; the save goes
    through for every non-null [v] on a row of a well-formed table. *)
Theorem profile_json_round_trip (s : Store) (u : User.t) (v : JSON) :
  (forall s', save (User.set_profile_json u v) s = (Ok tt, s') ->
     (exists u', find_by_id (User.id u) s' = Some u' /\ User.profile_json u' = v)
     /\ (forall u', In u' (rows s') -> User.id u' = User.id u ->
                    User.profile_json u' = v))
  /\ (wf s -> In u (rows s) -> v <> JNull ->
      exists s', save (User.set_profile_json u v) s = (Ok tt, s')).
Proof.
  set (w := User.set_profile_json u v).
  assert (Ew : User.id w = User.id u) by reflexivity.
  split.
  - intros s'. rewrite save_run.
    destruct (is_null (User.profile_json w)); [discriminate|].
    destruct (existsb (fun x => (User.id x =? User.id w)%Z) (rows s)) eqn:Ep.
    + destruct (existsb _ (filter _ (rows s))); [discriminate|].
      intros H. inversion H; subst s'. clear H. split.
      * exists w. split; [|reflexivity].
        unfold find_by_id. cbn [rows]. rewrite <- Ew.
        now apply find_replace_row_hit.
      * cbn [rows]. intros u' Hin Eid.
        apply replace_row_In in Hin as [[-> _]|[_ Hne]]; [reflexivity|congruence].
    + destruct (existsb _ (rows s)) eqn:Eu in |- *; [discriminate|].
      intros H. inversion H; subst s'. clear H. split.
      * exists w. split; [|reflexivity].
        unfold find_by_id. cbn [rows]. rewrite <- Ew.
        now apply find_app_last.
      * cbn [rows]. intros u' Hin Eid. apply in_app_or in Hin as [Hin|[<-|[]]].
        -- exfalso. rewrite existsb_false_In in Ep. specialize (Ep u' Hin).
           apply Z.eqb_neq in Ep. congruence.
        -- reflexivity.
  - intros W Hin Hv. eexists. apply (save_existing s w u W Hin); auto.
Qed.

Lemma profile_json_round_trip_witness :
  exists s',
    save (User.set_profile_json
            (User.Build 1 "alice" "alice@x.com" "plain$secret" "" ""
                        None None None (JObject []))
            (JObject [("theme", JString "dark")])) store_alice = (Ok tt, s')
    /\ exists u', find_by_id 1 s' = Some u'
                  /\ User.profile_json u' = JObject [("theme", JString "dark")].
Proof.
  eexists. split; [reflexivity|].
  apply (profile_json_round_trip store_alice
           (User.Build 1 "alice" "alice@x.com" "plain$secret" "" ""
                       None None None (JObject []))
           (JObject [("theme", JString "dark")])).
  reflexivity.
Defined.

(** ** The assignment loop of [UpdateProfile.mutate] *)

Lemma Arg_eqb_eq a b : Arg.eqb a b = true <-> a = b.
Proof. destruct a, b; simpl; split; congruence. Qed.

Lemma getattr_arg_assign user k0 v0 k :
  getattr_arg (UpdateProfile_assign user (k0, v0)) k =
  match v0 with
  | Some x => if Arg.eqb k0 k then Some x else getattr_arg user k
  | None => getattr_arg user k
  end.
Proof. destruct v0, k0, k; reflexivity. Qed.

Lemma assign_same_outside_profile user kv :
  same_outside_profile user (UpdateProfile_assign user kv).
Proof.
  destruct kv as [k [v|]]; [destruct k|]; repeat split.
Qed.

Lemma loop_same_outside_profile kwargs user :
  same_outside_profile user (fold_left UpdateProfile_assign kwargs user).
Proof.
  revert user. induction kwargs as [|kv kwargs IH]; intros user; simpl.
  - repeat split.
  - specialize (IH (UpdateProfile_assign user kv)).
    pose proof (assign_same_outside_profile user kv) as H.
    unfold same_outside_profile in *.
    repeat match goal with H : _ /\ _ |- _ => destruct H end.
    repeat split; congruence.
Qed.

(** A field no argument gives a non-null value for keeps its value. *)
Lemma loop_untouched kwargs user k :
  (forall v, ~ In (k, Some v) kwargs) ->
  getattr_arg (fold_left UpdateProfile_assign kwargs user) k = getattr_arg user k.
Proof.
  revert user. induction kwargs as [|[k0 v0] kwargs IH]; intros user H;
    cbn [fold_left].
  - reflexivity.
  - rewrite IH by (intros v Hv; apply (H v); now right).
    rewrite getattr_arg_assign. destruct v0 as [x|]; [|reflexivity].
    destruct (Arg.eqb k0 k) eqn:E; [|reflexivity].
    apply Arg_eqb_eq in E. subst k0. exfalso. apply (H x). now left.
Qed.

(** A field given a non-null value ends with that value. *)
Lemma loop_supplied kwargs user k v :
  NoDup (map fst kwargs) -> In (k, Some v) kwargs ->
  getattr_arg (fold_left UpdateProfile_assign kwargs user) k = Some v.
Proof.
  revert user. induction kwargs as [|[k0 v0] kwargs IH]; intros user Hnd Hin;
    cbn [fold_left].
  - contradiction.
  - inversion Hnd as [|? ? Hk0 Hnd']; subst. destruct Hin as [E|Hin].
    + inversion E; subst k0 v0.
      rewrite loop_untouched.
      * rewrite getattr_arg_assign.
        now replace (Arg.eqb k k) with true by (symmetry; now apply Arg_eqb_eq).
      * intros x Hx. apply Hk0. change k with (fst (k, Some x)). now apply in_map.
    + now apply IH.
Qed.

(** C3: for a caller that is a row of a well-formed table, [updateProfile]
    succeeds; its result carries the supplied non-null values in the
    fields they were supplied for, keeps every other profile field and all
    of id, user name, e-mail, password hash, names and [profile_json];
    the caller's row becomes that record, and the row under every other
    key, the set of keys and the sequence are as before. *)
Theorem UpdateProfile_frame (s : Store) (user : User.t) (kwargs : kwargs_t) :
  wf s -> In user (rows s) -> NoDup (map fst kwargs) ->
  exists user' s',
    UpdateProfile_mutate (Authenticated user) kwargs s = (Ok user', s')
    /\ (forall k v, In (k, Some v) kwargs -> getattr_arg user' k = Some v)
    /\ (forall k, (forall v, ~ In (k, Some v) kwargs) ->
                  getattr_arg user' k = getattr_arg user k)
    /\ same_outside_profile user user'
    /\ find_by_id (User.id user) s' = Some user'
    /\ (forall pk, pk <> User.id user -> find_by_id pk s' = find_by_id pk s)
    /\ (forall u, In u (rows s) -> User.id u <> User.id user -> In u (rows s'))
    /\ (forall u, In u (rows s') -> u = user' \/ In u (rows s))
    /\ map User.id (rows s') = map User.id (rows s)
    /\ next_id s' = next_id s.
Proof.
  intros W Hin Hnd.
  set (user' := fold_left UpdateProfile_assign kwargs user).
  pose proof (loop_same_outside_profile kwargs user) as Hsame. fold user' in Hsame.
  destruct Hsame as (Eid & Eun & Eem & Epw & Efn & Eln & Epj).
  exists user', {| rows := replace_row user' (rows s); next_id := next_id s |}.
  assert (Hsave : save user' s
                  = (Ok tt, {| rows := replace_row user' (rows s);
                               next_id := next_id s |})).
  { apply (save_existing s user' user); auto.
    rewrite Epj. now apply W. }
  split; [|split; [|split; [|split; [|split; [|split; [|split; [|split; [|split]]]]]]]].
  - unfold UpdateProfile_mutate. fold user'. run. now rewrite Hsave.
  - intros k v Hk. now apply loop_supplied.
  - intros k Hk. now apply loop_untouched.
  - repeat split; assumption.
  - unfold find_by_id. cbn [rows]. rewrite <- Eid.
    apply find_replace_row_hit. apply existsb_exists.
    exists user. split; [assumption|]. apply Z.eqb_eq. congruence.
  - intros pk Hpk. unfold find_by_id. cbn [rows].
    apply find_replace_row_miss. congruence.
  - intros u Hu Hne. cbn [rows]. apply replace_row_keeps; congruence.
  - cbn [rows]. intros u Hu.
    apply replace_row_In in Hu as [[-> _]|[Hu _]]; auto.
  - cbn [rows]. apply replace_row_ids.
  - reflexivity.
Qed.

Lemma UpdateProfile_frame_witness :
  exists user' s',
    UpdateProfile_mutate
      (Authenticated (User.Build 1 "alice" "alice@x.com" "plain$secret" "" ""
                                 None (Some "+15550100") None (JObject [])))
      [(Arg.avatar_url, Some "http://x/img.png"); (Arg.secondary_contact, None)]
      store_bob = (Ok user', s')
    /\ User.avatar_url user' = Some "http://x/img.png"
    /\ User.primary_contact user' = Some "+15550100"
    /\ User.secondary_contact user' = None.
Proof.
  destruct (UpdateProfile_frame store_bob
              (User.Build 1 "alice" "alice@x.com" "plain$secret" "" ""
                          None (Some "+15550100") None (JObject []))
              [(Arg.avatar_url, Some "http://x/img.png");
               (Arg.secondary_contact, None)])
    as (user' & s' & Hrun & Hset & Hkeep & _).
  - split; cbn.
    + intros u [<-|[<-|[]]]; cbn; lia.
    + repeat constructor; cbn; intuition discriminate.
    + repeat constructor; cbn; intuition discriminate.
    + intros u [<-|[<-|[]]]; discriminate.
  - left. reflexivity.
  - repeat constructor; cbn; intuition discriminate.
  - exists user', s'. split; [exact Hrun|]. split; [|split].
    + apply (Hset Arg.avatar_url). now left.
    + apply (Hkeep Arg.primary_contact).
      intros v [H|[H|[]]]; discriminate.
    + apply (Hkeep Arg.secondary_contact).
      intros v [H|[H|[]]]; discriminate.
Defined.

(** ** The constraints are kept *)

Lemma NoDup_snoc {A} (l : list A) x : NoDup l -> ~ In x l -> NoDup (l ++ [x]).
Proof.
  induction l as [|a l IH]; simpl; intros Hnd Hx.
  - constructor; [intros []|constructor].
  - inversion Hnd; subst. constructor.
    + rewrite in_app_iff. simpl. intuition congruence.
    + apply IH; auto.
Qed.

Lemma wf_empty_store : wf empty_store.
Proof. split; cbn; try constructor; intros u []. Qed.

Lemma wf_insert s u :
  wf s -> User.id u = next_id s ->
  (forall v, In v (rows s) -> User.username v <> User.username u) ->
  User.profile_json u <> JNull ->
  wf {| rows := rows s ++ [u]; next_id := next_id s + 1 |}.
Proof.
  intros [Hr Hi Hn Hp] Eid Hun Hpj. split; cbn [rows next_id].
  - intros v Hv. apply in_app_or in Hv as [Hv|[<-|[]]].
    + specialize (Hr v Hv). lia.
    + lia.
  - rewrite map_app. apply NoDup_snoc; [assumption|].
    intros Hin. apply in_map_iff in Hin as (v & E & Hv).
    specialize (Hr v Hv). cbn in E. lia.
  - rewrite map_app. apply NoDup_snoc; [assumption|].
    intros Hin. apply in_map_iff in Hin as (v & E & Hv). now apply (Hun v).
  - intros v Hv. apply in_app_or in Hv as [Hv|[<-|[]]]; auto.
Qed.

Lemma wf_replace s u u0 :
  wf s -> In u0 (rows s) ->
  User.id u = User.id u0 -> User.username u = User.username u0 ->
  User.profile_json u <> JNull ->
  wf {| rows := replace_row u (rows s); next_id := next_id s |}.
Proof.
  intros W Hin Eid Eun Hpj. destruct W as [Hr Hi Hn Hp].
  split; cbn [rows next_id].
  - intros v Hv. apply replace_row_In in Hv as [[-> _]|[Hv _]]; auto.
    rewrite Eid. auto.
  - now rewrite replace_row_ids.
  - replace (map User.username (replace_row u (rows s)))
      with (map User.username (rows s)); [assumption|].
    unfold replace_row. rewrite map_map. apply map_ext_in. intros v Hv.
    destruct (Z.eqb_spec (User.id v) (User.id u)) as [E|_]; [|reflexivity].
    assert (v = u0)
      by (apply (NoDup_map_In_eq User.id (rows s)); auto; congruence).
    congruence.
  - intros v Hv. apply replace_row_In in Hv as [[-> _]|[Hv _]]; auto.
Qed.

(** [UpdateProfile.mutate] for a caller that is a row of a well-formed
    table: the loop, then an update of the caller's row. *)
Lemma UpdateProfile_run s user kwargs :
  wf s -> In user (rows s) ->
  let user' := fold_left UpdateProfile_assign kwargs user in
  UpdateProfile_mutate (Authenticated user) kwargs s
  = (Ok user', {| rows := replace_row user' (rows s); next_id := next_id s |})
  /\ wf {| rows := replace_row user' (rows s); next_id := next_id s |}.
Proof.
  intros W Hin user'.
  destruct (loop_same_outside_profile kwargs user)
    as (Eid & Eun & _ & _ & _ & _ & Epj).
  fold user' in Eid, Eun, Epj.
  assert (Hnn : User.profile_json user' <> JNull)
    by (rewrite Epj; now apply W).
  split.
  - unfold UpdateProfile_mutate. fold user'. run.
    now rewrite (save_existing s user' user W Hin Eid Eun Hnn).
  - now apply (wf_replace s user' user).
Qed.

Section Invariants.

Context {L : Lib}.

(** A successful [register] on a well-formed table appends one row. *)
Lemma Register_mutate_fresh s email password username first_name last_name :
  wf s ->
  (forall v, In v (rows s) -> User.email v <> email) ->
  Register_username email username <> "" ->
  (forall v, In v (rows s) ->
             User.username v
             <> normalize_username (Register_username email username)) ->
  let u := Register_user s email password username first_name last_name in
  Register_mutate email password username first_name last_name s
  = (Ok (u, fst (tokens_for u), snd (tokens_for u)),
     {| rows := rows s ++ [u]; next_id := next_id s + 1 |}).
Proof.
  intros W Hem Hne Hun u. rewrite Register_mutate_run. fold u.
  assert (E1 : exists_ (objects_filter_email email s) = false).
  { destruct (exists_ _) eqn:E; [|reflexivity].
    apply exists_true_iff in E as [v Hv].
    apply objects_filter_email_In in Hv as [Hv Ev]. now destruct (Hem v Hv). }
  rewrite E1.
  destruct (Register_username email username) as [|c un] eqn:Eun; [congruence|].
  assert (E2 : existsb (fun v => User.username v
                                 =? normalize_username (String c un))
                       (rows s) = false).
  { apply existsb_false_In. intros v Hv. apply String.eqb_neq. now apply Hun. }
  rewrite E2. rewrite replace_row_snoc; [reflexivity|].
  intros v Hv. pose proof (wf_id_range s W v Hv).
  subst u. cbn [Register_user User.id]. lia.
Qed.

End Invariants.

(** ** Defaults of a registration *)

(** C10, as the code has it: for a [register] call whose [username]
    argument is omitted, null or empty, the record a successful call
    creates has as user name the NFKC normal form of the part of the
    e-mail before its first [@], which is that part itself when it is
    ASCII; an omitted (or empty) [first_name] or [last_name] is stored as
    the empty string.  The call does succeed on a well-formed table when
    the e-mail is new, as submitted and in normal form, that part of it is
    non-empty and its normal form is nobody's user name. *)
Theorem Register_default_names {L : Lib}
    (s : Store) (email password : string)
    (username first_name last_name : option string) :
  username = None \/ username = Some "" ->
  (forall user access refresh s',
     Register_mutate email password username first_name last_name s
       = (Ok (user, access, refresh), s') ->
     User.username user = normalize_username (local_part email)
     /\ (PyStr.isascii (local_part email) = true ->
         User.username user = local_part email)
     /\ In user (rows s')
     /\ (first_name = None \/ first_name = Some "" -> User.first_name user = "")
     /\ (last_name = None \/ last_name = Some "" -> User.last_name user = ""))
  /\ (wf s ->
      (forall v, In v (rows s) -> User.email v <> email) ->
      (forall v, In v (rows s) -> User.email v <> normalize_email email) ->
      local_part email <> "" ->
      (forall v, In v (rows s) ->
                 User.username v <> normalize_username (local_part email)) ->
      exists user access refresh s',
        Register_mutate email password username first_name last_name s
          = (Ok (user, access, refresh), s')).
Proof.
  intros Hun.
  assert (Eu : Register_username email username = local_part email).
  { rewrite <- split_head_local_part. unfold Register_username.
    destruct Hun; subst; reflexivity. }
  split.
  - intros user access refresh s'. rewrite Register_mutate_run.
    destruct (exists_ _); [discriminate|].
    destruct (Register_username email username) as [|c un] eqn:Eun; [discriminate|].
    destruct (existsb _ (rows s)); [discriminate|].
    intros H. inversion H; subst. clear H.
    assert (En : User.username
                   (Register_user s email password username first_name last_name)
                 = normalize_username (local_part email))
      by (cbn [Register_user User.username]; now rewrite Eun, Eu).
    split; [exact En|]. split; [|split; [|split]].
    + intros Ha. rewrite En. now apply normalize_username_ascii.
    + unfold replace_row. apply in_map_iff.
      exists (Register_user s email password username first_name last_name).
      split.
      * now rewrite Z.eqb_refl.
      * apply in_or_app. right. now left.
    + intros [->| ->]; reflexivity.
    + intros [->| ->]; reflexivity.
  - intros W Hem _ Hne Hfree. eexists _, _, _, _.
    apply Register_mutate_fresh; rewrite ?Eu; assumption.
Qed.

Lemma Register_default_names_witness :
  exists user access refresh s',
    Register_mutate (L := plain_lib) "carol@x.com" "pw" None None None store_alice
      = (Ok (user, access, refresh), s')
    /\ User.username user = "carol"
    /\ User.first_name user = "" /\ User.last_name user = "".
Proof.
  eexists _, _, _, _. split; [reflexivity|].
  destruct (Register_default_names (L := plain_lib) store_alice
              "carol@x.com" "pw" None None None (or_introl eq_refl))
    as [Hok _].
  destruct (Hok _ _ _ _ eq_refl) as (_ & Hu & _ & Hf & Hl).
  split; [apply Hu; reflexivity|]. split; [apply Hf | apply Hl]; now left.
Defined.

(** C10 as stated fails on the code: [create_user] stores the NFKC normal
    form of the user name.  For the e-mail whose part before the [@] is
    the ligature U+FB01 followed by [n], with [username] omitted, the
    record is stored under the user name [fin], which is not that part of
    the e-mail. *)
Lemma Register_default_names_counterexample :
  exists user access refresh s',
    Register_mutate (L := plain_lib) (fin_ligature ++ "@x.com") "pw"
                    None None None empty_store
      = (Ok (user, access, refresh), s')
    /\ User.username user = "fin"
    /\ local_part (fin_ligature ++ "@x.com") = fin_ligature
    /\ User.username user <> local_part (fin_ligature ++ "@x.com").
Proof.
  eexists _, _, _, _. split; [reflexivity|].
  split; [reflexivity|]. split; [reflexivity|]. discriminate.
Qed.

Section Reachability.

Context {L : Lib}.

Lemma handle_wf r s : wf s -> request_ok s r -> wf (handle r s).
Proof.
  intros W Hok.
  destruct r as [email password username first_name last_name
                | email password | info kwargs | info]; cbn [handle].
  - rewrite Register_mutate_run.
    destruct (exists_ _); [exact W|].
    destruct (Register_username email username) as [|c un] eqn:Eun; [exact W|].
    destruct (existsb _ (rows s)) eqn:Ex; [exact W|]. cbn [snd].
    rewrite replace_row_snoc.
    + apply wf_insert; try assumption; try reflexivity.
      * intros v Hv. rewrite existsb_false_In in Ex. specialize (Ex v Hv).
        apply String.eqb_neq in Ex.
        cbn [Register_user User.username]. now rewrite Eun.
      * discriminate.
    + intros v Hv. pose proof (wf_id_range s W v Hv).
      cbn [Register_user User.id]. lia.
  - now rewrite Login_mutate_eq.
  - destruct info as [|user]; [exact W|].
    destruct (UpdateProfile_run s user kwargs W Hok) as [-> W'].
    exact W'.
  - exact W.
Qed.

(** The table constraints hold in every reachable table; in particular
    no two rows share a key or a user name. *)
Lemma reachable_wf s : reachable s -> wf s.
Proof.
  induction 1 as [|s r _ IH Hok].
  - exact wf_empty_store.
  - now apply handle_wf.
Qed.

End Reachability.

(** ** Registration *)




(** ** E-mail uniqueness *)

Lemma run_requests_reachable {L : Lib} rs :
  Forall (fun r => match r with ReqRegister _ _ _ _ _ | ReqLogin _ _ => True
                              | _ => False end) rs ->
  reachable (run_requests rs).
Proof.
  unfold run_requests. generalize reach_empty. generalize empty_store.
  induction rs as [|r rs IH]; intros s Hs Hall; cbn [fold_left]; [assumption|].
  inversion Hall; subst. apply IH; [|assumption].
  apply reach_step; [assumption|]. destruct r; easy.
Qed.

(** C6 on the code: two [register] calls with the e-mail [a@X.com] and two
    user names, from the empty table.  The first stores [a@x.com]; the
    duplicate check of the second looks for [a@X.com], finds nothing, and
    a second row with [a@x.com] is stored.  The reachable table satisfies
    the table constraints and has two rows with one e-mail. *)
Theorem Register_email_not_unique {L : Lib} :
  let s := run_requests twice_same_email in
  reachable s /\ wf s /\ ~ email_unique s
  /\ exists u v, In u (rows s) /\ In v (rows s)
                 /\ User.id u <> User.id v /\ User.email u = User.email v
                 /\ User.email u = "a@x.com".
Proof.
  intros s.
  assert (R : reachable s)
    by (apply run_requests_reachable; repeat constructor).
  split; [exact R|]. split; [now apply reachable_wf|].
  pose (u1 := Register_user empty_store "a@X.com" "pw" (Some "u1") None None).
  pose (s1 := {| rows := [u1]; next_id := 2 |}).
  pose (u2 := Register_user s1 "a@X.com" "pw" (Some "u2") None None).
  assert (E1 : handle (ReqRegister "a@X.com" "pw" (Some "u1") None None)
                      empty_store = s1).
  { cbn [handle]. rewrite Register_mutate_fresh; [reflexivity| | | |].
    - exact wf_empty_store.
    - intros v [].
    - discriminate.
    - intros v []. }
  assert (E2 : handle (ReqRegister "a@X.com" "pw" (Some "u2") None None) s1
               = {| rows := [u1; u2]; next_id := 3 |}).
  { cbn [handle]. rewrite Register_mutate_fresh; [reflexivity| | | |].
    - rewrite <- E1. apply handle_wf; [exact wf_empty_store|exact I].
    - intros v [<-|[]]. cbv. discriminate.
    - discriminate.
    - intros v [<-|[]].
      cbn [u1 Register_user User.username Register_username PyStr.or_].
      rewrite !normalize_username_ascii by reflexivity. discriminate. }
  assert (Es : s = {| rows := [u1; u2]; next_id := 3 |}).
  { subst s. unfold run_requests, twice_same_email. cbn [fold_left].
    rewrite E1. exact E2. }
  assert (E : map User.email (rows s) = ["a@x.com"; "a@x.com"])
    by (rewrite Es; reflexivity).
  split.
  - unfold email_unique. rewrite E. intros H. inversion H as [|? ? Hin _]; subst.
    apply Hin. now left.
  - assert (Ei : map User.id (rows s) = [1; 2]) by (rewrite Es; reflexivity).
    destruct (rows s) as [|u [|v [|w r]]]; try discriminate.
    exists u, v. cbn [map] in E, Ei.
    injection E as Eu Ev. injection Ei as Iu Iv.
    split; [now left|]. split; [right; now left|].
    split; [lia|]. split; congruence.
Qed.

(** ** Login of a registered user *)

(** C5, as the code has it: when [u] is the only row whose stored e-mail
    is [e], its password verifies [p], and no other row has [e] as user
    name with a password that verifies [p], [login(e, p)] succeeds,
    returns [u] with two non-empty tokens and leaves the table alone; [u]
    was found by the user-name authentication or, that having failed, by
    the e-mail look-up. *)
Theorem Login_registered {L : Lib} (s : Store) (u : User.t) (e p : string) :
  In u (rows s) -> User.email u = e -> check_password u p = true ->
  (forall v, In v (rows s) -> User.email v = e -> v = u) ->
  (forall v, In v (rows s) -> User.username v = e ->
             check_password v p = true -> v = u) ->
  exists access refresh,
    Login_mutate e p s = (Ok (u, access, refresh), s)
    /\ access <> "" /\ refresh <> ""
    /\ (authenticate e p s = Some u
        \/ (authenticate e p s = None
            /\ first (objects_filter_email e s) = Some u)).
Proof.
  intros Hin He Hp Honly Hname.
  assert (Hfirst : first (objects_filter_email e s) = Some u).
  { apply first_only.
    - intros E. assert (H : In u (objects_filter_email e s))
        by now apply objects_filter_email_In.
      rewrite E in H. contradiction.
    - intros v Hv. apply objects_filter_email_In in Hv as [Hv Ev]. now apply Honly. }
  assert (Hauth : authenticate e p s = Some u \/ authenticate e p s = None).
  { unfold authenticate. destruct (get_by_natural_key e s) as [v|] eqn:Ek; [|now right].
    destruct (check_password v p) eqn:Ec; [|now right].
    apply get_by_natural_key_Some in Ek as [Hv Ev].
    left. f_equal. now apply Hname. }
  exists (fst (tokens_for u)), (snd (tokens_for u)).
  split; [|split; [|split]].
  - rewrite Login_mutate_eq. unfold Login_lookup.
    destruct Hauth as [-> | ->]; [reflexivity|].
    now rewrite Hfirst, Hp.
  - apply jwt_encode_nonempty.
  - apply jwt_encode_nonempty.
  - destruct Hauth; auto.
Qed.

Lemma Login_registered_witness :
  exists u access refresh,
    Login_mutate (L := plain_lib) "bob@x.com" "hunter2" store_bob
    = (Ok (u, access, refresh), store_bob)
    /\ User.id u = 2 /\ access <> "" /\ refresh <> "".
Proof.
  destruct (Login_registered (L := plain_lib) store_bob
              (User.Build 2 "bob" "bob@x.com" "plain$hunter2" "Bob" ""
                          None None None (JObject []))
              "bob@x.com" "hunter2")
    as (access & refresh & Hrun & Ha & Hr & _).
  - right. now left.
  - reflexivity.
  - reflexivity.
  - intros v [<-|[<-|[]]]; [discriminate|reflexivity].
  - intros v [<-|[<-|[]]]; discriminate.
  - eexists _, access, refresh. split; [exact Hrun|]. split; [reflexivity|].
    split; assumption.
Defined.

(** C5 as stated fails on the code.  After [register] of [a@x.com] under
    the user name [b@x.com] and [register] of [b@x.com], both with
    password [pw], [login("b@x.com", "pw")] authenticates the first
    record by its user name and returns it, not the record whose e-mail is
    [b@x.com].  And after [register("a@X.com", "pw")], which stores
    [a@x.com], [login("a@X.com", "pw")] finds no record. *)
Lemma Login_registered_counterexample :
  (let s := run_requests (L := plain_lib) email_as_username in
   reachable (L := plain_lib) s
   /\ exists u v access refresh,
        In u (rows s) /\ User.email u = "b@x.com"
        /\ check_password (L := plain_lib) u "pw" = true
        /\ Login_mutate (L := plain_lib) "b@x.com" "pw" s
           = (Ok (v, access, refresh), s)
        /\ User.id u = 2 /\ User.id v = 1 /\ User.email v = "a@x.com")
  /\ (exists u access refresh s,
        Register_mutate (L := plain_lib) "a@X.com" "pw" None None None empty_store
        = (Ok (u, access, refresh), s)
        /\ Login_mutate (L := plain_lib) "a@X.com" "pw" s
           = (Raise InvalidCredentials, s)).
Proof.
  split.
  - intros s. split.
    + apply run_requests_reachable. repeat constructor.
    + eexists _, _, _, _. split; [right; left; reflexivity|].
      repeat split; reflexivity.
  - eexists _, _, _, _. split; reflexivity.
Qed.

(** * Further properties of the layer *)

(** ** White space, case and the last [@] *)

Lemma isspace_lower_char c :
  PyStr.isspace (PyStr.lower_char c) = PyStr.isspace c.
Proof. destruct c as [[] [] [] [] [] [] [] []]; reflexivity. Qed.

Lemma lower_char_idem c :
  PyStr.lower_char (PyStr.lower_char c) = PyStr.lower_char c.
Proof. destruct c as [[] [] [] [] [] [] [] []]; reflexivity. Qed.

Lemma lower_char_at c :
  Ascii.eqb (PyStr.lower_char c) "@" = Ascii.eqb c "@".
Proof. destruct c as [[] [] [] [] [] [] [] []]; reflexivity. Qed.

Lemma lower_idem s : PyStr.lower (PyStr.lower s) = PyStr.lower s.
Proof.
  induction s as [|c s IH]; cbn [PyStr.lower]; [reflexivity|].
  now rewrite lower_char_idem, IH.
Qed.

Lemma append_inv_head (a x y : string) : a ++ x = a ++ y -> x = y.
Proof.
  induction a as [|c a IH]; cbn [append]; intros H; [assumption|].
  injection H as H. auto.
Qed.

Lemma rsplit1_Some sep s a b :
  PyStr.rsplit1 sep s = Some (a, b) ->
  s = a ++ String sep b /\ PyStr.rsplit1 sep b = None.
Proof.
  revert a b. induction s as [|c s IH]; cbn [PyStr.rsplit1]; intros a b H;
    [discriminate|].
  destruct (PyStr.rsplit1 sep s) as [[a' b']|] eqn:E.
  - injection H as <- <-. destruct (IH a' b' eq_refl) as [-> Hn].
    split; [reflexivity|assumption].
  - destruct (Ascii.eqb_spec c sep) as [->|_]; [|discriminate].
    injection H as <- <-. split; [reflexivity|assumption].
Qed.

Lemma rsplit1_app sep a b :
  PyStr.rsplit1 sep b = None ->
  PyStr.rsplit1 sep (a ++ String sep b) = Some (a, b).
Proof.
  intros Hb. induction a as [|c a IH]; cbn [append PyStr.rsplit1].
  - now rewrite Hb, Ascii.eqb_refl.
  - now rewrite IH.
Qed.

Lemma rsplit1_lower_None b :
  PyStr.rsplit1 "@" b = None -> PyStr.rsplit1 "@" (PyStr.lower b) = None.
Proof.
  induction b as [|c b IH]; cbn [PyStr.lower PyStr.rsplit1]; [reflexivity|].
  destruct (PyStr.rsplit1 "@" b) as [[a' b']|]; [discriminate|].
  rewrite (IH eq_refl), lower_char_at.
  destruct (Ascii.eqb c "@"); [discriminate|reflexivity].
Qed.

Lemma lstrip_length s : (String.length (PyStr.lstrip s) <= String.length s)%nat.
Proof.
  induction s as [|c s IH]; cbn [PyStr.lstrip String.length]; [lia|].
  destruct (PyStr.isspace c); cbn [String.length]; lia.
Qed.

(** What [lstrip] returns is empty or starts with a character that is not
    white space. *)
Lemma lstrip_head s :
  PyStr.lstrip s = "" \/
  exists c r, PyStr.lstrip s = String c r /\ PyStr.isspace c = false.
Proof.
  induction s as [|c s IH]; cbn [PyStr.lstrip]; [now left|].
  destruct (PyStr.isspace c) eqn:E; [assumption|]. right. eauto.
Qed.

Lemma lstrip_fixed_head c s :
  PyStr.lstrip (String c s) = String c s -> PyStr.isspace c = false.
Proof.
  cbn [PyStr.lstrip]. destruct (PyStr.isspace c); [|reflexivity].
  intros H. pose proof (lstrip_length s) as Hl. rewrite H in Hl.
  cbn [String.length] in Hl. lia.
Qed.

Lemma rstrip_cons c s :
  PyStr.isspace c = false ->
  PyStr.rstrip (String c s) = String c (PyStr.rstrip s).
Proof.
  intros Hc. cbn [PyStr.rstrip]. rewrite Hc.
  destruct (PyStr.rstrip s); reflexivity.
Qed.

Lemma rstrip_idem s : PyStr.rstrip (PyStr.rstrip s) = PyStr.rstrip s.
Proof.
  induction s as [|c s IH]; [reflexivity|]. cbn [PyStr.rstrip].
  destruct (PyStr.rstrip s) as [|d r] eqn:E.
  - destruct (PyStr.isspace c) eqn:Ec; [reflexivity|].
    cbn [PyStr.rstrip]. now rewrite Ec.
  - cbn [PyStr.rstrip]. cbn [PyStr.rstrip] in IH.
    destruct (PyStr.rstrip r) as [|d' r'] eqn:Er.
    + destruct (PyStr.isspace d); [discriminate|]. now rewrite IH.
    + now rewrite IH.
Qed.

Lemma rstrip_app a s :
  PyStr.rstrip s <> "" -> PyStr.rstrip (a ++ s) = a ++ PyStr.rstrip s.
Proof.
  intros Hs. induction a as [|c a IH]; cbn [append]; [reflexivity|].
  cbn [PyStr.rstrip]. rewrite IH.
  destruct (a ++ PyStr.rstrip s) as [|d r] eqn:E; [|reflexivity].
  destruct a; cbn [append] in E; [contradiction|discriminate].
Qed.

Lemma rstrip_lower s :
  PyStr.rstrip (PyStr.lower s) = PyStr.lower (PyStr.rstrip s).
Proof.
  induction s as [|c s IH]; [reflexivity|].
  cbn [PyStr.lower PyStr.rstrip]. rewrite IH, isspace_lower_char.
  destruct (PyStr.rstrip s) as [|d r]; cbn [PyStr.lower].
  - destruct (PyStr.isspace c); reflexivity.
  - reflexivity.
Qed.

(** The result of [strip] is a fixed point of both halves of [strip]. *)
Lemma strip_stripped s :
  PyStr.lstrip (PyStr.strip s) = PyStr.strip s
  /\ PyStr.rstrip (PyStr.strip s) = PyStr.strip s.
Proof.
  unfold PyStr.strip. split; [|apply rstrip_idem].
  destruct (lstrip_head s) as [->|(c & r & -> & Hc)]; [reflexivity|].
  rewrite (rstrip_cons c r Hc). cbn [PyStr.lstrip]. now rewrite Hc.
Qed.

(** A normalised e-mail is in normal form. *)
Lemma normalize_email_normal (email : string) :
  normalize_email (normalize_email email) = normalize_email email.
Proof.
  unfold normalize_email at 2 3.
  destruct (PyStr.rsplit1 "@" (PyStr.strip email)) as [[a b]|] eqn:E.
  - apply rsplit1_Some in E as [Et Hb].
    destruct (strip_stripped email) as [Hl Hr]. rewrite Et in Hl, Hr.
    assert (Hat : PyStr.isspace "@" = false) by reflexivity.
    assert (Hrb : PyStr.rstrip b = b).
    { rewrite rstrip_app in Hr by (rewrite (rstrip_cons _ _ Hat); discriminate).
      rewrite (rstrip_cons _ _ Hat) in Hr. apply append_inv_head in Hr.
      now injection Hr. }
    set (r := a ++ "@" ++ PyStr.lower b).
    assert (Er : r = a ++ String "@" (PyStr.lower b)) by reflexivity.
    assert (Hsr : PyStr.strip r = r).
    { unfold PyStr.strip.
      assert (Hlr : PyStr.lstrip r = r).
      { rewrite Er. destruct a as [|c a]; cbn [append]; [reflexivity|].
        cbn [append] in Hl. apply lstrip_fixed_head in Hl.
        cbn [PyStr.lstrip]. now rewrite Hl. }
      rewrite Hlr, Er.
      rewrite rstrip_app by (rewrite (rstrip_cons _ _ Hat); discriminate).
      now rewrite (rstrip_cons _ _ Hat), rstrip_lower, Hrb. }
    unfold normalize_email. rewrite Hsr, Er.
    rewrite (rsplit1_app "@" a (PyStr.lower b) (rsplit1_lower_None b Hb)).
    now rewrite lower_idem.
  - unfold normalize_email. now rewrite E.
Qed.

(** X1: [normalize_email] is idempotent, and a second application finds
    nothing left to strip: what [create_user] stores as e-mail is a fixed
    point of the normalisation and of [strip] whenever it contains an [@]. *)
Theorem normalize_email_idempotent (email : string) :
  normalize_email (normalize_email email) = normalize_email email
  /\ (PyStr.rsplit1 "@" (PyStr.strip email) <> None ->
      PyStr.strip (normalize_email email) = normalize_email email).
Proof.
  split; [apply normalize_email_normal|].
  intros Hat. unfold normalize_email.
  destruct (PyStr.rsplit1 "@" (PyStr.strip email)) as [[a b]|] eqn:E;
    [|congruence].
  apply rsplit1_Some in E as [Et Hb].
  destruct (strip_stripped email) as [Hl Hr]. rewrite Et in Hl, Hr.
  assert (Hsp : PyStr.isspace "@" = false) by reflexivity.
  assert (Hrb : PyStr.rstrip b = b).
  { rewrite rstrip_app in Hr by (rewrite (rstrip_cons _ _ Hsp); discriminate).
    rewrite (rstrip_cons _ _ Hsp) in Hr. apply append_inv_head in Hr.
    now injection Hr. }
  change (a ++ "@" ++ PyStr.lower b) with (a ++ String "@" (PyStr.lower b)).
  unfold PyStr.strip.
  assert (Hlr : PyStr.lstrip (a ++ String "@" (PyStr.lower b))
                = a ++ String "@" (PyStr.lower b)).
  { destruct a as [|c a]; cbn [append]; [reflexivity|].
    cbn [append] in Hl. apply lstrip_fixed_head in Hl.
    cbn [PyStr.lstrip]. now rewrite Hl. }
  rewrite Hlr.
  rewrite rstrip_app by (rewrite (rstrip_cons _ _ Hsp); discriminate).
  now rewrite (rstrip_cons _ _ Hsp), rstrip_lower, Hrb.
Qed.

Lemma normalize_email_idempotent_witness :
  PyStr.strip (normalize_email "  Dave@Example.COM ") = "Dave@example.com".
Proof.
  destruct (normalize_email_idempotent "  Dave@Example.COM ") as [_ H].
  rewrite H; [reflexivity|discriminate].
Defined.

(** ** Outcomes of [Register.mutate] *)

Section RegisterOutcomes.

Context {L : Lib}.

(** The row a successful [register] returns is in the table, with the
    e-mail normalised and the password hashed. *)
Lemma Register_mutate_Ok s s' email password username first_name last_name
    user access refresh :
  Register_mutate email password username first_name last_name s
    = (Ok (user, access, refresh), s') ->
  user = Register_user s email password username first_name last_name
  /\ s' = {| rows := replace_row user (rows s ++ [user]);
             next_id := next_id s + 1 |}
  /\ In user (rows s')
  /\ (forall v, In v (rows s) -> User.email v <> email)
  /\ Register_username email username <> ""
  /\ (forall v, In v (rows s) ->
                User.username v
                <> normalize_username (Register_username email username)).
Proof.
  rewrite Register_mutate_run.
  destruct (exists_ (objects_filter_email email s)) eqn:E1; [discriminate|].
  destruct (Register_username email username) as [|c un] eqn:Eun; [discriminate|].
  destruct (existsb _ (rows s)) eqn:E2; [discriminate|].
  intros H. injection H as <- _ _ <-.
  split; [reflexivity|]. split; [reflexivity|].
  split; [|split; [|split]].
  - cbn [rows]. unfold replace_row. apply in_map_iff.
    exists (Register_user s email password username first_name last_name).
    split; [now rewrite Z.eqb_refl|]. apply in_or_app. right. now left.
  - intros v Hv Ev. apply exists_false_iff in E1.
    assert (Hin : In v (objects_filter_email email s))
      by now apply objects_filter_email_In.
    rewrite E1 in Hin. contradiction.
  - discriminate.
  - intros v Hv. rewrite existsb_false_In in E2. specialize (E2 v Hv).
    now apply String.eqb_neq.
Qed.

(** X2: a [register] call that raises writes nothing, and it raises one of
    three exceptions, each with its cause: the e-mail is the stored e-mail
    of a row; the user name handed to [create_user] is empty; the NFKC
    normal form of that user name is the user name of a row. *)
Theorem Register_failure_atomic
    (s s' : Store) (email password : string)
    (username first_name last_name : option string) (err : error) :
  Register_mutate email password username first_name last_name s
    = (Raise err, s') ->
  s' = s
  /\ ((err = DuplicateEmail
       /\ exists v, In v (rows s) /\ User.email v = email)
      \/ (err = ValueError "The given username must be set"
          /\ Register_username email username = "")
      \/ (err = unique_violation
          /\ exists v, In v (rows s)
                       /\ User.username v
                          = normalize_username
                              (Register_username email username))).
Proof.
  rewrite Register_mutate_run.
  destruct (exists_ (objects_filter_email email s)) eqn:E1.
  - intros H. injection H as <- <-. split; [reflexivity|]. left.
    split; [reflexivity|].
    apply exists_true_iff in E1 as [v Hv].
    apply objects_filter_email_In in Hv. eauto.
  - destruct (Register_username email username) as [|c un] eqn:Eun.
    + intros H. injection H as <- <-. split; [reflexivity|]. right. left.
      split; reflexivity.
    + destruct (existsb _ (rows s)) eqn:E2; [|discriminate].
      intros H. injection H as <- <-. split; [reflexivity|]. right. right.
      split; [reflexivity|].
      apply existsb_exists in E2 as (v & Hv & Ev).
      apply String.eqb_eq in Ev. eauto.
Qed.

(** X3: [register] succeeds exactly when no row carries the submitted
    e-mail, the user name handed to [create_user] is non-empty, and no row
    carries the NFKC normal form of that user name. *)
Theorem Register_succeeds_iff
    (s : Store) (email password : string)
    (username first_name last_name : option string) :
  (exists user access refresh s',
     Register_mutate email password username first_name last_name s
       = (Ok (user, access, refresh), s'))
  <->
  ((forall v, In v (rows s) -> User.email v <> email)
   /\ Register_username email username <> ""
   /\ (forall v, In v (rows s) ->
                 User.username v
                 <> normalize_username (Register_username email username))).
Proof.
  split.
  - intros (user & access & refresh & s' & H).
    apply Register_mutate_Ok in H. tauto.
  - rewrite Register_mutate_run. intros (Hem & Hne & Hun).
    assert (E1 : exists_ (objects_filter_email email s) = false).
    { destruct (exists_ _) eqn:E; [|reflexivity].
      apply exists_true_iff in E as [v Hv].
      apply objects_filter_email_In in Hv as [Hv Ev]. now destruct (Hem v Hv). }
    rewrite E1.
    destruct (Register_username email username) as [|c un] eqn:Eun; [congruence|].
    assert (E2 : existsb (fun v => User.username v
                                   =? normalize_username (String c un))
                         (rows s) = false).
    { apply existsb_false_In. intros v Hv. apply String.eqb_neq. now apply Hun. }
    rewrite E2. eauto.
Qed.


End RegisterOutcomes.

Lemma Register_failure_atomic_witness :
  Register_mutate (L := plain_lib) "alice@y.org" "pw" None None None store_alice
    = (Raise unique_violation, store_alice)
  /\ exists v, In v (rows store_alice) /\ User.username v = "alice".
Proof.
  split; [reflexivity|].
  destruct (Register_failure_atomic (L := plain_lib) store_alice store_alice
              "alice@y.org" "pw" None None None unique_violation eq_refl)
    as [_ [[H _]|[[H _]|[_ H]]]]; [discriminate H|discriminate H|exact H].
Defined.


(** ** What [Login.mutate] accepts *)

Section LoginOutcomes.

Context {L : Lib}.

(** In a table with unique user names the look-up by user name returns
    the row that carries the name. *)
Lemma get_by_natural_key_unique s u :
  NoDup (map User.username (rows s)) -> In u (rows s) ->
  get_by_natural_key (User.username u) s = Some u.
Proof.
  intros Hnd Hin. unfold get_by_natural_key.
  destruct (filter _ (rows s)) as [|v q] eqn:E.
  - assert (H : In u (filter (fun x => User.username x =? User.username u) (rows s)))
      by (apply filter_In; split; [assumption|apply String.eqb_refl]).
    rewrite E in H. contradiction.
  - assert (H : In v (filter (fun x => User.username x =? User.username u) (rows s)))
      by (rewrite E; now left).
    apply filter_In in H as [Hv Ev]. apply String.eqb_eq in Ev.
    f_equal. now apply (NoDup_map_In_eq User.username (rows s)).
Qed.


(** X6: a [login] that succeeds returns a row of the table whose stored
    hash verifies the submitted password and whose user name or e-mail is
    the submitted string, with two non-empty tokens, and the table is as
    before: no record is returned on a password that does not verify. *)
Theorem Login_sound (s s' : Store) (e p : string)
    (u : User.t) (access refresh : string) :
  Login_mutate e p s = (Ok (u, access, refresh), s') ->
  s' = s
  /\ In u (rows s)
  /\ check_password u p = true
  /\ (User.username u = e \/ User.email u = e)
  /\ access <> "" /\ refresh <> "".
Proof.
  rewrite Login_mutate_eq.
  destruct (Login_lookup e p s) as [v|] eqn:E; [|discriminate].
  intros H. injection H as -> <- <- <-.
  apply Login_lookup_In in E as (Hin & Hc & Hm).
  repeat split; try assumption; apply jwt_encode_nonempty.
Qed.

(** X7: [login] accepts a user name in its [email] argument: when a row
    of a table with unique user names has the submitted string as user
    name and its password verifies, [login] returns that row, whatever
    e-mails the table holds. *)
Theorem Login_by_username (s : Store) (u : User.t) (p : string) :
  NoDup (map User.username (rows s)) ->
  In u (rows s) -> check_password u p = true ->
  exists access refresh,
    Login_mutate (User.username u) p s = (Ok (u, access, refresh), s).
Proof.
  intros Hnd Hin Hp. rewrite Login_mutate_eq.
  unfold Login_lookup, authenticate.
  rewrite (get_by_natural_key_unique s u Hnd Hin), Hp. eauto.
Qed.


End LoginOutcomes.

Lemma Login_sound_witness :
  Login_mutate (L := plain_lib) "bob@x.com" "hunter2" store_bob
  = (Ok (User.Build 2 "bob" "bob@x.com" "plain$hunter2" "Bob" ""
                    None None None (JObject []), "access.", "refresh."),
     store_bob)
  /\ check_password (L := plain_lib)
       (User.Build 2 "bob" "bob@x.com" "plain$hunter2" "Bob" ""
                   None None None (JObject [])) "hunter2" = true.
Proof.
  split; [reflexivity|].
  destruct (Login_sound (L := plain_lib) store_bob store_bob
              "bob@x.com" "hunter2"
              (User.Build 2 "bob" "bob@x.com" "plain$hunter2" "Bob" ""
                          None None None (JObject []))
              "access." "refresh." eq_refl)
    as (_ & _ & Hc & _).
  exact Hc.
Defined.

Lemma Login_by_username_witness :
  exists access refresh,
    Login_mutate (L := plain_lib) "bob" "hunter2" store_bob
    = (Ok (User.Build 2 "bob" "bob@x.com" "plain$hunter2" "Bob" ""
                      None None None (JObject []), access, refresh),
       store_bob).
Proof.
  apply (Login_by_username (L := plain_lib) store_bob
           (User.Build 2 "bob" "bob@x.com" "plain$hunter2" "Bob" ""
                       None None None (JObject [])) "hunter2").
  - repeat constructor; cbn; intuition discriminate.
  - right. now left.
  - reflexivity.
Defined.


(** ** What a request does to the rows *)


Lemma same_outside_profile_refl u : same_outside_profile u u.
Proof. repeat split. Qed.

Section Steps.

Context {L : Lib}.

(** A request on a well-formed table leaves it alone, appends the row of
    a registration, or rewrites the caller's row with the result of the
    assignment loop. *)
Lemma handle_cases r s :
  wf s -> request_ok s r ->
  handle r s = s
  \/ (exists e p un fn ln,
        r = ReqRegister e p un fn ln
        /\ handle r s = {| rows := rows s ++ [Register_user s e p un fn ln];
                           next_id := next_id s + 1 |}
        /\ (forall v, In v (rows s) -> User.email v <> e)
        /\ Register_username e un <> "")
  \/ (exists user kw,
        r = ReqUpdateProfile (Authenticated user) kw
        /\ In user (rows s)
        /\ handle r s
           = {| rows := replace_row (fold_left UpdateProfile_assign kw user) (rows s);
                next_id := next_id s |}).
Proof.
  intros W Hok.
  destruct r as [e p un fn ln | e p | info kw | info]; cbn [handle].
  - destruct (Register_mutate e p un fn ln s) as [[[[u a] rf]|err] s'] eqn:E.
    + apply Register_mutate_Ok in E as (Eu & Es & _ & Hem & Hne & _).
      right. left. exists e, p, un, fn, ln. split; [reflexivity|].
      cbn [snd]. rewrite Es, Eu. split; [|split; assumption].
      f_equal. apply replace_row_snoc.
      intros v Hv. pose proof (wf_id_range s W v Hv).
      cbn [Register_user User.id]. lia.
    + left. cbn [snd]. rewrite Register_mutate_run in E.
      destruct (exists_ _); [now injection E|].
      destruct (Register_username e un); [now injection E|].
      destruct (existsb _ (rows s)); [now injection E|discriminate].
  - left. now rewrite Login_mutate_eq.
  - destruct info as [|user]; [now left|].
    right. right. exists user, kw. split; [reflexivity|]. split; [exact Hok|].
    now destruct (UpdateProfile_run s user kw W Hok) as [-> _].
  - now left.
Qed.

(** One step keeps [row_ok] on every row. *)
Lemma handle_row_ok r s :
  wf s -> request_ok s r ->
  (forall u, In u (rows s) -> row_ok u) ->
  forall u, In u (rows (handle r s)) -> row_ok u.
Proof.
  intros W Hok IH u Hu.
  destruct (handle_cases r s W Hok)
    as [E | [(e & p & un & fn & ln & _ & E & _ & Hne)
           | (user & kw & _ & Hin & E)]];
    rewrite E in Hu; cbn [rows] in Hu.
  - auto.
  - apply in_app_or in Hu as [Hu|[<-|[]]]; [auto|].
    split; [cbn [Register_user User.username];
            now apply normalize_username_nonempty|].
    split.
    + cbn [Register_user User.email]. apply normalize_email_normal.
    + exists p. reflexivity.
  - apply replace_row_In in Hu as [[-> _]|[Hu _]]; [|auto].
    destruct (loop_same_outside_profile kw user)
      as (_ & Eun & Eem & Epw & _).
    destruct (IH user Hin) as (H1 & H2 & raw & H3).
    split; [congruence|]. split; [congruence|].
    exists raw. congruence.
Qed.

Lemma reachable_row_ok s :
  reachable s -> forall u, In u (rows s) -> row_ok u.
Proof.
  induction 1 as [|s r Hs IH Hok].
  - intros u [].
  - apply handle_row_ok; auto. now apply reachable_wf.
Qed.

(** X8: in every reachable table each row has a non-empty user name, an
    e-mail that is its own normal form, and a password column that is the
    output of [make_password]: no request stores a password any other
    way. *)
Theorem reachable_rows_ok (s : Store) (u : User.t) :
  reachable s -> In u (rows s) ->
  User.username u <> ""
  /\ normalize_email (User.email u) = User.email u
  /\ exists raw, User.password u = make_password raw.
Proof.
  intros Hs. revert u. induction Hs as [|s r Hs IH Hok]; intros u Hu.
  - destruct Hu.
  - exact (handle_row_ok r s (reachable_wf s Hs) Hok IH u Hu).
Qed.

(** X9: no request removes a row or changes what identifies one: after
    any request on a well-formed table every earlier row is still there
    under its id, with the same user name, e-mail, password hash, names
    and [profile_json], and the table has at least as many rows. *)
Theorem handle_keeps_rows (r : request) (s : Store) :
  wf s -> request_ok s r ->
  (forall u, In u (rows s) ->
     exists u', In u' (rows (handle r s)) /\ same_outside_profile u u')
  /\ (List.length (rows s) <= List.length (rows (handle r s)))%nat.
Proof.
  intros W Hok.
  destruct (handle_cases r s W Hok)
    as [E | [(e & p & un & fn & ln & _ & E & _)
           | (user & kw & _ & Hin & E)]];
    rewrite E; cbn [rows].
  - split; [|lia]. intros u Hu. exists u.
    split; [assumption|apply same_outside_profile_refl].
  - split; [|rewrite length_app; lia]. intros u Hu. exists u.
    split; [apply in_or_app; now left|apply same_outside_profile_refl].
  - split; [|unfold replace_row; rewrite length_map; lia].
    intros u Hu.
    pose proof (loop_same_outside_profile kw user) as Hsame.
    destruct (Z.eq_dec (User.id u) (User.id user)) as [Ei|Ei].
    + assert (u = user)
        by (apply (NoDup_map_In_eq User.id (rows s)); auto; apply W).
      subst u. exists (fold_left UpdateProfile_assign kw user).
      split; [|assumption].
      unfold replace_row. apply in_map_iff. exists user.
      split; [|assumption].
      destruct Hsame as (-> & _). now rewrite Z.eqb_refl.
    + exists u. split; [|apply same_outside_profile_refl].
      apply replace_row_keeps; [assumption|].
      destruct Hsame as (-> & _). assumption.
Qed.


End Steps.

Lemma reachable_rows_ok_witness :
  exists raw,
    User.password
      (User.Build 2 "bob" "b@x.com" "plain$pw" "" "" None None None (JObject []))
    = make_password (Lib := plain_lib) raw.
Proof.
  apply (reachable_rows_ok (L := plain_lib)
           (run_requests (L := plain_lib) email_as_username)
           (User.Build 2 "bob" "b@x.com" "plain$pw" "" "" None None None
                       (JObject []))).
  - apply run_requests_reachable. repeat constructor.
  - right. left. reflexivity.
Defined.

Lemma handle_keeps_rows_witness :
  exists u',
    In u' (rows (handle (L := plain_lib)
                   (ReqUpdateProfile
                      (Authenticated
                         (User.Build 2 "bob" "bob@x.com" "plain$hunter2" "Bob" ""
                                     None None None (JObject [])))
                      [(Arg.avatar_url, Some "http://x/b.png")])
                   store_bob))
    /\ same_outside_profile
         (User.Build 2 "bob" "bob@x.com" "plain$hunter2" "Bob" ""
                     None None None (JObject [])) u'.
Proof.
  apply (handle_keeps_rows (L := plain_lib)
           (ReqUpdateProfile
              (Authenticated
                 (User.Build 2 "bob" "bob@x.com" "plain$hunter2" "Bob" ""
                             None None None (JObject [])))
              [(Arg.avatar_url, Some "http://x/b.png")])
           store_bob).
  - split; cbn.
    + intros u [<-|[<-|[]]]; cbn; lia.
    + repeat constructor; cbn; intuition discriminate.
    + repeat constructor; cbn; intuition discriminate.
    + intros u [<-|[<-|[]]]; discriminate.
  - right. left. reflexivity.
  - right. left. reflexivity.
Defined.


(** ** Repeating and emptying [updateProfile] *)

Lemma User_ext u u' :
  same_outside_profile u u' ->
  (forall k, getattr_arg u' k = getattr_arg u k) ->
  u' = u.
Proof.
  intros (H1 & H2 & H3 & H4 & H5 & H6 & H7) Hk.
  pose proof (Hk Arg.primary_contact) as Kp.
  pose proof (Hk Arg.secondary_contact) as Ks.
  pose proof (Hk Arg.avatar_url) as Ka.
  destruct u, u'. cbn in *. congruence.
Qed.

Lemma loop_all_null kwargs user :
  (forall k v, ~ In (k, Some v) kwargs) ->
  fold_left UpdateProfile_assign kwargs user = user.
Proof.
  revert user. induction kwargs as [|[k0 [v0|]] kwargs IH]; intros user H;
    cbn [fold_left].
  - reflexivity.
  - exfalso. apply (H k0 v0). now left.
  - cbn [UpdateProfile_assign]. apply IH. intros k v Hv. apply (H k v). now right.
Qed.

(** From two starting records the loop ends with the same value in a
    field, or in each case with the value the field started with. *)
Lemma loop_field_cases kwargs u1 u2 k :
  getattr_arg (fold_left UpdateProfile_assign kwargs u1) k
  = getattr_arg (fold_left UpdateProfile_assign kwargs u2) k
  \/ (getattr_arg (fold_left UpdateProfile_assign kwargs u1) k = getattr_arg u1 k
      /\ getattr_arg (fold_left UpdateProfile_assign kwargs u2) k = getattr_arg u2 k).
Proof.
  induction kwargs as [|[k0 v0] kwargs IH] using rev_ind.
  - right. split; reflexivity.
  - rewrite !fold_left_app. cbn [fold_left]. rewrite !getattr_arg_assign.
    destruct v0 as [x|]; [|exact IH].
    destruct (Arg.eqb k0 k); [now left|exact IH].
Qed.

Lemma loop_idem kwargs user :
  fold_left UpdateProfile_assign kwargs
            (fold_left UpdateProfile_assign kwargs user)
  = fold_left UpdateProfile_assign kwargs user.
Proof.
  apply User_ext.
  - apply loop_same_outside_profile.
  - intros k.
    destruct (loop_field_cases kwargs
                (fold_left UpdateProfile_assign kwargs user) user k)
      as [E|[E _]]; exact E.
Qed.

Lemma replace_row_self u r :
  NoDup (map User.id r) -> In u r -> replace_row u r = r.
Proof.
  intros Hnd Hin. unfold replace_row. rewrite <- (map_id r) at 2.
  apply map_ext_in. intros v Hv.
  destruct (Z.eqb_spec (User.id v) (User.id u)) as [E|_]; [|reflexivity].
  symmetry. now apply (NoDup_map_In_eq User.id r).
Qed.

Lemma UpdateProfile_fixed s user kwargs :
  wf s -> In user (rows s) ->
  fold_left UpdateProfile_assign kwargs user = user ->
  UpdateProfile_mutate (Authenticated user) kwargs s = (Ok user, s).
Proof.
  intros W Hin E.
  destruct (UpdateProfile_run s user kwargs W Hin) as [-> _].
  rewrite E, replace_row_self; [|apply W|assumption].
  now destruct s.
Qed.

(** X11: an [updateProfile] call by a caller that is a row of a
    well-formed table and that supplies no non-null value (no argument at
    all, or nulls only) returns the caller's record and leaves the table
    exactly as it was. *)
Theorem UpdateProfile_noop (s : Store) (user : User.t) (kwargs : kwargs_t) :
  wf s -> In user (rows s) ->
  (forall k v, ~ In (k, Some v) kwargs) ->
  UpdateProfile_mutate (Authenticated user) kwargs s = (Ok user, s).
Proof.
  intros W Hin Hnull. apply UpdateProfile_fixed; auto.
  now apply loop_all_null.
Qed.

(** X12: [updateProfile] is idempotent: after a call by a row of a
    well-formed table, the returned record is a row of the new table, and
    the same call made again by that record returns it again and changes
    nothing. *)
Theorem UpdateProfile_idempotent
    (s s' : Store) (user user' : User.t) (kwargs : kwargs_t) :
  wf s -> In user (rows s) ->
  UpdateProfile_mutate (Authenticated user) kwargs s = (Ok user', s') ->
  In user' (rows s')
  /\ UpdateProfile_mutate (Authenticated user') kwargs s' = (Ok user', s').
Proof.
  intros W Hin H.
  destruct (UpdateProfile_run s user kwargs W Hin) as [E W'].
  rewrite E in H. injection H as <- <-.
  assert (Hin' : In (fold_left UpdateProfile_assign kwargs user)
                    (replace_row (fold_left UpdateProfile_assign kwargs user)
                                 (rows s))).
  { unfold replace_row. apply in_map_iff. exists user. split; [|assumption].
    destruct (loop_same_outside_profile kwargs user) as (-> & _).
    now rewrite Z.eqb_refl. }
  split; [exact Hin'|].
  apply UpdateProfile_fixed; [exact W'|exact Hin'|apply loop_idem].
Qed.

Lemma UpdateProfile_noop_witness :
  UpdateProfile_mutate
    (Authenticated (User.Build 2 "bob" "bob@x.com" "plain$hunter2" "Bob" ""
                               None None None (JObject [])))
    [(Arg.avatar_url, None); (Arg.primary_contact, None)] store_bob
  = (Ok (User.Build 2 "bob" "bob@x.com" "plain$hunter2" "Bob" ""
                    None None None (JObject [])), store_bob).
Proof.
  apply UpdateProfile_noop.
  - split; cbn.
    + intros u [<-|[<-|[]]]; cbn; lia.
    + repeat constructor; cbn; intuition discriminate.
    + repeat constructor; cbn; intuition discriminate.
    + intros u [<-|[<-|[]]]; discriminate.
  - right. left. reflexivity.
  - intros k v [H|[H|[]]]; discriminate.
Defined.

Lemma UpdateProfile_idempotent_witness :
  exists user' s',
    UpdateProfile_mutate
      (Authenticated (User.Build 2 "bob" "bob@x.com" "plain$hunter2" "Bob" ""
                                 None None None (JObject [])))
      [(Arg.avatar_url, Some "http://x/b.png")] store_bob = (Ok user', s')
    /\ UpdateProfile_mutate (Authenticated user')
         [(Arg.avatar_url, Some "http://x/b.png")] s' = (Ok user', s').
Proof.
  eexists _, _. split; [reflexivity|].
  apply (UpdateProfile_idempotent store_bob _
           (User.Build 2 "bob" "bob@x.com" "plain$hunter2" "Bob" ""
                       None None None (JObject []))).
  - split; cbn.
    + intros u [<-|[<-|[]]]; cbn; lia.
    + repeat constructor; cbn; intuition discriminate.
    + repeat constructor; cbn; intuition discriminate.
    + intros u [<-|[<-|[]]]; discriminate.
  - right. left. reflexivity.
  - reflexivity.
Defined.

(** ** The display name *)












(** X14: the display name of a row of a reachable table is never empty,
    and for a row registered without names it is the user name. *)
Theorem User_str_reachable {L : Lib} (s : Store) (u : User.t) :
  reachable s -> In u (rows s) ->
  User__str__ u <> ""
  /\ (User.first_name u = "" -> User.last_name u = "" ->
      User__str__ u = User.username u).
Proof.
  intros Hs Hu. destruct (reachable_row_ok s Hs u Hu) as (Hne & _).
  unfold User__str__, get_full_name. split.
  - destruct (PyStr.strip _); [exact Hne|discriminate].
  - intros -> ->. reflexivity.
Qed.

Lemma User_str_reachable_witness :
  User__str__
    (User.Build 2 "bob" "b@x.com" "plain$pw" "" "" None None None (JObject []))
  <> "".
Proof.
  apply (User_str_reachable (L := plain_lib)
           (run_requests (L := plain_lib) email_as_username)
           (User.Build 2 "bob" "b@x.com" "plain$pw" "" "" None None None
                       (JObject []))).
  - apply run_requests_reachable. repeat constructor.
  - right. left. reflexivity.
Defined.

(** ** Finding a registered record *)



